(** * Virtual Conference Translator: the session relay, the REST join and
      the summary endpoint

    A shallow embedding of the server side of the repository:
    - the Socket.IO connection handler of [server.js] (room join and the
      re-emission of caption, chat and summary events),
    - the route [POST /api/sessions/:id/join] of [routes/sessions.js],
    - the route [POST /api/transcripts/summaries] of [routes/transcripts.js],
    - the class [GeminiService] of [services/geminiService.js],
    over an in-memory model of the tables of [database/schema.sql] and
    with the binding [pool] that the route files get from [server.js];
    further on, the middleware [verifyToken], the routes that leave a
    session, set its status, list its transcripts and summaries, read and
    write the language preferences, register and log in, and the language
    selector of the front end. *)

From Stdlib Require Import ZArith String Ascii List Lia.
From stdpp Require Import base option gmap sets list strings sorting.

#[local] Set Warnings "-register-all,-clear-no-such-hyp".

Local Open Scope string_scope.
Local Open Scope Z_scope.

(** ** JavaScript values as they arrive in a packet or a request body *)

Module JS.

(** Primitive values. Numbers are modelled by integers: the identifiers
    that the clients send are integers or strings. *)
Inductive prim : Type :=
| PUndefined
| PNull
| PBool (b : bool)
| PNum (n : Z)
| PStr (s : string).

(** Structured values: an object is the list of its own properties. *)
Inductive value : Type :=
| VPrim (p : prim)
| VObj (fields : list (string * value))
| VArr (items : list value).

Definition undefined : value := VPrim PUndefined.
Definition str (s : string) : value := VPrim (PStr s).
Definition num (n : Z) : value := VPrim (PNum n).

#[global] Instance prim_eq_dec : EqDecision prim.
Proof. solve_decision. Defined.

Definition prim_to_sum (p : prim) : unit + (unit + (bool + (Z + string))) :=
  match p with
  | PUndefined => inl tt
  | PNull => inr (inl tt)
  | PBool b => inr (inr (inl b))
  | PNum n => inr (inr (inr (inl n)))
  | PStr s => inr (inr (inr (inr s)))
  end.

Definition prim_of_sum (x : unit + (unit + (bool + (Z + string)))) : prim :=
  match x with
  | inl _ => PUndefined
  | inr (inl _) => PNull
  | inr (inr (inl b)) => PBool b
  | inr (inr (inr (inl n))) => PNum n
  | inr (inr (inr (inr s))) => PStr s
  end.

#[global] Instance prim_countable : Countable prim.
Proof.
  apply (inj_countable' prim_to_sum prim_of_sum).
  intros []; reflexivity.
Defined.

(** Lookup of an own property in the property list of an object. *)
Fixpoint lookup_field (k : string) (fs : list (string * value)) : option value :=
  match fs with
  | [] => None
  | (k', v) :: fs' => if String.eqb k k' then Some v else lookup_field k fs'
  end.

(** [v.k], for the property names that the server reads ([sessionId],
    [timestamp]), which no primitive and no array defines: reading a
    property of [undefined] or [null] throws a [TypeError] ([None]); a
    property that is absent reads as [undefined]. *)
Definition get (v : value) (k : string) : option value :=
  match v with
  | VPrim PUndefined | VPrim PNull => None
  | VPrim _ => Some undefined
  | VObj fs => Some (default undefined (lookup_field k fs))
  | VArr _ => Some undefined
  end.

(** The first argument of a listener; a missing argument is [undefined]. *)
Definition arg0 (args : list value) : value := hd undefined args.

(** [a === b] where [b] is a string literal. *)
Definition strict_eq_str (a : value) (lit : string) : bool :=
  match a with
  | VPrim (PStr s) => String.eqb s lit
  | _ => false
  end.

End JS.

(** ** Rooms of Socket.IO

    Socket.IO is a dependency of the repository; its rooms are modelled
    after its documented behaviour: a room is a named set of sockets, a
    socket joins the room named by its own id when it connects, [join]
    adds the socket to a room and creates the room when it is absent, a
    socket may be in any number of rooms, a socket leaves all its rooms
    when it disconnects, a room without sockets is deleted, and
    [socket.to(room).emit(ev, data)] sends the packet to every socket of
    the room except [socket] itself. *)

Module SocketIO.
Import JS.

Definition socket_id : Type := string.

(** Room names are map keys compared by value: primitives. *)
Definition room : Type := prim.

Record adapter : Type := mkAdapter {
  sockets : gset socket_id;
  rooms : gmap prim (gset string)
}.

Definition empty : adapter := mkAdapter ∅ ∅.

Definition members (a : adapter) (r : room) : gset string :=
  default ∅ (rooms a !! r).

(** [socket.join(r)] *)
Definition join (a : adapter) (id : socket_id) (r : room) : adapter :=
  mkAdapter (sockets a) (<[r := {[id]} ∪ members a r]> (rooms a)).

(** A new connection: the socket is registered and joins its own room. *)
Definition connect (a : adapter) (id : socket_id) : adapter :=
  join (mkAdapter ({[id]} ∪ sockets a) (rooms a)) id (PStr id).

(** Removal of a socket from one member set; [None] deletes the room. *)
Definition drop_member (id : socket_id) (ms : gset string) : option (gset string) :=
  let ms' := ms ∖ {[id]} in
  if decide (ms' = ∅) then None else Some ms'.

(** Transport close: the socket leaves every room. *)
Definition leave_all (a : adapter) (id : socket_id) : adapter :=
  mkAdapter (sockets a ∖ {[id]}) (omap (drop_member id) (rooms a)).

(** One emission: the packet and the set of sockets it is written to. *)
Record emission : Type := mkEmission {
  em_to : gset string;
  em_event : string;
  em_data : value
}.

(** [socket.to(r).emit(ev, data)] *)
Definition to_emit (a : adapter) (id : socket_id) (r : room)
    (ev : string) (data : value) : emission :=
  mkEmission (members a r ∖ {[id]}) ev data.

(** A value used as a room name. An object or an array is not a room
    name of the model. *)
Definition as_room (v : value) : option room :=
  match v with
  | VPrim p => Some p
  | _ => None
  end.

End SocketIO.

(** ** [server.js]: the connection handler *)

Module Server.
Import JS SocketIO.

(** What the run of one listener leaves behind. *)
Inductive outcome : Type :=
| Done (a : adapter) (out : list emission)
| TypeError
| NotARoomName.

(** [socket.on('join-session', (sessionId) => { socket.join(sessionId); })] *)
Definition on_join_session (a : adapter) (id : socket_id) (sessionId : value) : outcome :=
  match as_room sessionId with
  | Some r => Done (join a id r) []
  | None => NotARoomName
  end.

(** [(data) => { socket.to(data.sessionId).emit(ev, data); }], the body
    shared by the listeners of ['caption-update'], ['chat-message'] and
    ['summary-update']. *)
Definition re_emit (ev : string) (a : adapter) (id : socket_id) (data : value) : outcome :=
  match get data "sessionId" with
  | None => TypeError
  | Some v =>
      match as_room v with
      | Some r => Done a [to_emit a id r ev data]
      | None => NotARoomName
      end
  end.

Definition on_caption_update := re_emit "caption-update".
Definition on_chat_message := re_emit "chat-message".
Definition on_summary_update := re_emit "summary-update".

(** The listeners registered on a socket by [io.on('connection', ...)],
    by event name. An event without a listener is dropped. *)
Definition listener (ev : string) : option (adapter → socket_id → value → outcome) :=
  if String.eqb ev "join-session" then Some on_join_session
  else if String.eqb ev "caption-update" then Some on_caption_update
  else if String.eqb ev "chat-message" then Some on_chat_message
  else if String.eqb ev "summary-update" then Some on_summary_update
  else None.

(** An inbound packet [socket.emit(ev, ...args)] of the client [id]. *)
Definition on_packet (a : adapter) (id : socket_id) (ev : string) (args : list value) : outcome :=
  match listener ev with
  | Some f => f a id (arg0 args)
  | None => Done a []
  end.

(** What reaches the server from the transport. *)
Inductive input : Type :=
| Connect (id : socket_id)
| Packet (id : socket_id) (ev : string) (args : list value)
| Disconnect (id : socket_id).

Definition step (a : adapter) (i : input) : outcome :=
  match i with
  | Connect id => Done (connect a id) []
  | Packet id ev args => on_packet a id ev args
  | Disconnect id => Done (leave_all a id) []
  end.

(** A run of the server: the state after a sequence of inputs and the
    emissions made on the way. An exception that a listener throws is
    caught by nobody and ends the process: the run stops there, with the
    rooms and the emissions that it had reached; so it does at a room
    name outside the model. *)
Fixpoint run (a : adapter) (ins : list input) : adapter * list emission :=
  match ins with
  | [] => (a, [])
  | i :: ins' =>
      match step a i with
      | Done a' out => let '(a'', out') := run a' ins' in (a'', (out ++ out')%list)
      | _ => (a, [])
      end
  end.

Definition state_of (o : outcome) (a : adapter) : adapter :=
  match o with Done a' _ => a' | _ => a end.

Definition emitted (o : outcome) : list emission :=
  match o with Done _ out => out | _ => [] end.

(** The sockets a listener run wrote to. *)
Definition recipients (o : outcome) : gset string :=
  ⋃ (em_to <$> emitted o).

(** The events the relay is documented to carry. *)
Inductive domain_event : Type := CaptionUpdate | ChatMessage | SummaryUpdate.

Definition event_name (e : domain_event) : string :=
  match e with
  | CaptionUpdate => "caption-update"
  | ChatMessage => "chat-message"
  | SummaryUpdate => "summary-update"
  end.

End Server.

(** ** Strings of JavaScript

    A [string] is read as a sequence of code units below 256. *)

Module JSString.

(** The class [\s] of a regular expression, which is also what [trim]
    strips: tab, line feed, vertical tab, form feed, carriage return,
    space and no-break space. *)
Definition is_space (c : ascii) : bool :=
  let n := nat_of_ascii c in
  ((9 <=? n) && (n <=? 13) || (n =? 32) || (n =? 160))%nat.

(** The class [[.!?]]. *)
Definition is_terminator (c : ascii) : bool :=
  (Ascii.eqb c "." || Ascii.eqb c "!" || Ascii.eqb c "?")%char.

(** [s.split(/[class]+/)]: the pieces between the maximal runs of
    characters of the class. A run at either end leaves an empty piece
    there; a string without a run is its own single piece. [cur] holds
    the piece being read, reversed; [in_run] tells that the previous
    character was of the class. *)
Fixpoint split_go (cls : ascii → bool) (cur : list ascii) (in_run : bool)
    (cs : list ascii) : list string :=
  match cs with
  | [] => [string_of_list_ascii (rev cur)]
  | c :: cs' =>
      if cls c then
        if in_run then split_go cls cur true cs'
        else string_of_list_ascii (rev cur) :: split_go cls [] true cs'
      else split_go cls (c :: cur) false cs'
  end.

Definition split (cls : ascii → bool) (s : string) : list string :=
  split_go cls [] false (list_ascii_of_string s).

Fixpoint drop_spaces (cs : list ascii) : list ascii :=
  match cs with
  | c :: cs' => if is_space c then drop_spaces cs' else cs
  | [] => []
  end.

(** [s.trim()] *)
Definition trim (s : string) : string :=
  string_of_list_ascii
    (rev (drop_spaces (rev (drop_spaces (list_ascii_of_string s))))).

(** [l.join(sep)] *)
Fixpoint join (sep : string) (l : list string) : string :=
  match l with
  | [] => ""
  | [x] => x
  | x :: l' => x ++ sep ++ join sep l'
  end.

(** [l.slice(-n)]: the last [n] elements. *)
Definition slice_last {A} (n : nat) (l : list A) : list A :=
  skipn (length l - n) l.

(** [l.filter((_, i) => i % 3 === 0)], [i] being the index of the head. *)
Fixpoint every_third_from {A} (i : nat) (l : list A) : list A :=
  match l with
  | [] => []
  | x :: l' =>
      if (i mod 3 =? 0)%nat then x :: every_third_from (S i) l'
      else every_third_from (S i) l'
  end.

Definition every_third {A} (l : list A) : list A := every_third_from 0 l.

End JSString.

(** ** [services/geminiService.js] *)

Module GeminiService.
Import JS JSString.

(** The object that [generateSummary] resolves to. *)
Record summary : Type := mkSummary {
  content : string;
  keyPoints : list string;
  actionItems : list string
}.

Inductive result (A : Type) : Type :=
| Returns (a : A)
| Throws (message : string).
Arguments Returns {A} a.
Arguments Throws {A} message.

(** A finished call of a method of the service: how the promise settles
    and the prompts that were sent to the generative model meanwhile. *)
Record call (A : Type) : Type := mkCall {
  settled : result A;
  prompts : list string
}.
Arguments mkCall {A} settled prompts.
Arguments settled {A} c.
Arguments prompts {A} c.

(** The double quote of the template literals. *)
Definition dq : string := String (ascii_of_nat 34) EmptyString.

Definition transcription_fallback : string :=
  "This is a simulated transcription. Please integrate with actual speech-to-text API for production use.".

(** [generateSummary(transcripts, summaryType = 'rolling')] *)
Definition generateSummary (transcripts : list string) (summaryType : value) : call summary :=
  let summaryType :=
    match summaryType with VPrim PUndefined => str "rolling" | v => v end in
  let conversationText := join " " transcripts in
  let words :=
    List.filter (fun word => (2 <? String.length word)%nat)
      (split is_space conversationText) in
  if strict_eq_str summaryType "key_points" then
    let phrases :=
      List.filter (fun phrase => (10 <? String.length (trim phrase))%nat)
        (split is_terminator conversationText) in
    let keyPoints := List.map trim (firstn 5 phrases) in
    mkCall (Returns
      (mkSummary ("Key points discussed: " ++ join ". " keyPoints ++ ".")
         keyPoints [])) []
  else if strict_eq_str summaryType "final" then
    let selectedWords := firstn 20 (every_third words) in
    mkCall (Returns
      (mkSummary
         ("The discussion covered " ++ join ", " selectedWords ++
          ". Key topics included advancements and implementations. Conclusions focused on challenges and solutions.")
         []
         ["Follow up on implementation details"; "Schedule next meeting"])) []
  else
    let recentWords := slice_last 15 words in
    mkCall (Returns
      (mkSummary
         ("Recent developments: " ++ join " " recentWords ++
          ". The conversation is progressing well.")
         [] [])) [].

Section Model.

(** The generative model: [await this.model.generateContent(prompt)]
    followed by [response.text()]; [None] when the request is
    rejected or the response has no text. *)
Variable generateContent : string → option string.

(** [JSON.parse]; [None] when it throws. *)
Variable JSON_parse : string → option value.

(** [transcribeAudio(audioBuffer, language = 'en')] *)
Definition transcribeAudio (audioBuffer : value) (language : string) : call string :=
  let prompt :=
    "Transcribe the following audio content in " ++ language ++
    ". Since I can't process actual audio, please provide a realistic transcription example for a conference setting." in
  match generateContent prompt with
  | Some text => mkCall (Returns (trim text)) [prompt]
  | None => mkCall (Returns transcription_fallback) [prompt]
  end.

(** [translateText(text, targetLanguage, sourceLanguage = 'auto')] *)
Definition translateText (text targetLanguage sourceLanguage : string) : call string :=
  let prompt :=
    "Translate the following text to " ++ targetLanguage ++
    ". Source language: " ++ sourceLanguage ++ ". Text: " ++ dq ++ text ++ dq in
  match generateContent prompt with
  | Some text' => mkCall (Returns (trim text')) [prompt]
  | None => mkCall (Throws "Failed to translate text") [prompt]
  end.

(** [generateGlossary(transcripts)] *)
Definition generateGlossary (transcripts : list string) : call value :=
  let conversationText := join " " transcripts in
  let prompt :=
    "Extract technical terms, acronyms, and important terminology from this conversation. Return as a JSON object where keys are terms and values are definitions or explanations: "
    ++ dq ++ conversationText ++ dq in
  match generateContent prompt with
  | Some text =>
      match JSON_parse (trim text) with
      | Some glossary => mkCall (Returns glossary) [prompt]
      | None => mkCall (Returns (VObj [])) [prompt]
      end
  | None => mkCall (Throws "Failed to generate glossary") [prompt]
  end.

(** [clarifyContent(text, context)] *)
Definition clarifyContent (text : string) (context : list string) : call string :=
  let contextText := join " " context in
  let prompt :=
    "Given this context: " ++ dq ++ contextText ++ dq ++
    ", please clarify or provide more context for this potentially ambiguous statement: "
    ++ dq ++ text ++ dq in
  match generateContent prompt with
  | Some text' => mkCall (Returns (trim text')) [prompt]
  | None => mkCall (Throws "Failed to clarify content") [prompt]
  end.

End Model.

End GeminiService.

(** ** [database/schema.sql]: the tables the routes below use

    A row holds the columns that the modelled routes read or write. A
    column that may be [NULL] is an [option]. *)

Module Db.
Import JS.

Record session_row : Type := mkSession {
  s_id : Z;
  s_host_id : option Z;
  s_status : option string
}.

Record participant_row : Type := mkParticipant {
  sp_session_id : option Z;
  sp_user_id : option Z;
  sp_joined_at : Z
}.

Record transcript_row : Type := mkTranscript {
  t_session_id : option Z;
  t_text : string;
  t_timestamp : option Z
}.

Record summary_row : Type := mkSummaryRow {
  sm_id : Z;
  sm_session_id : option Z;
  sm_summary_type : option string;
  sm_content : string;
  sm_key_points : list string;
  sm_action_items : list string;
  sm_created_at : Z
}.

Record db : Type := mkDb {
  users : list Z;                       (* users.id *)
  sessions : list session_row;
  session_participants : list participant_row;
  transcripts : list transcript_row;
  summaries : list summary_row;
  summaries_id_seq : Z;                 (* last value of the serial *)
  now : Z                               (* NOW() *)
}.

Definition opt_is (o : option Z) (n : Z) : bool :=
  match o with Some m => m =? n | None => false end.

(** The range of the type INTEGER. *)
Definition in_int4 (n : Z) : bool :=
  (-2147483648 <=? n) && (n <=? 2147483647).

Definition opt_str_is (o : option string) (s : string) : bool :=
  match o with Some s' => String.eqb s' s | None => false end.

(** [SELECT * FROM sessions WHERE id = $1 AND status = $2] *)
Definition sessions_with_status (d : db) (sessionId : Z) (status : string) : list session_row :=
  List.filter (fun s => (s_id s =? sessionId) && opt_str_is (s_status s) status)
    (sessions d).

(** [SELECT * FROM session_participants WHERE session_id = $1 AND user_id = $2] *)
Definition participants_of (d : db) (sessionId userId : Z) : list participant_row :=
  List.filter (fun p => opt_is (sp_session_id p) sessionId && opt_is (sp_user_id p) userId)
    (session_participants d).

(** [SELECT s.id FROM sessions s WHERE s.id = $1 AND (s.host_id = $2 OR
    s.id IN (SELECT session_id FROM session_participants WHERE user_id = $2))] *)
Definition access_check (d : db) (sessionId userId : Z) : list Z :=
  List.map s_id
    (List.filter
       (fun s => (s_id s =? sessionId) &&
          (opt_is (s_host_id s) userId ||
           existsb (fun p => opt_is (sp_user_id p) userId && opt_is (sp_session_id p) (s_id s))
             (session_participants d)))
       (sessions d)).

(** [ORDER BY timestamp ASC]: rows without a timestamp come last; rows
    with equal timestamps keep the order of the table. *)
Definition ts_le (a b : option Z) : bool :=
  match a, b with
  | Some x, Some y => x <=? y
  | Some _, None => true
  | None, Some _ => false
  | None, None => true
  end.

Fixpoint insert_by_timestamp (r : transcript_row) (l : list transcript_row) : list transcript_row :=
  match l with
  | [] => [r]
  | r' :: l' =>
      if ts_le (t_timestamp r) (t_timestamp r') && negb (ts_le (t_timestamp r') (t_timestamp r))
      then r :: l
      else r' :: insert_by_timestamp r l'
  end.

Definition order_by_timestamp (l : list transcript_row) : list transcript_row :=
  fold_left (fun acc r => insert_by_timestamp r acc) l [].

(** [SELECT text FROM transcripts WHERE session_id = $1 ORDER BY timestamp ASC] *)
Definition transcript_texts (d : db) (sessionId : Z) : list string :=
  List.map t_text
    (order_by_timestamp
       (List.filter (fun t => opt_is (t_session_id t) sessionId) (transcripts d))).

(** [INSERT INTO session_participants (session_id, user_id, joined_at)
    VALUES ($1, $2, NOW())]; [None] when a foreign key has no target. *)
Definition insert_participant (d : db) (sessionId userId : Z) : option db :=
  if existsb (fun s => s_id s =? sessionId) (sessions d) &&
     existsb (Z.eqb userId) (users d)
  then Some (mkDb (users d) (sessions d)
               (session_participants d ++ [mkParticipant (Some sessionId) (Some userId) (now d)])%list
               (transcripts d) (summaries d) (summaries_id_seq d) (now d))
  else None.

(** A JavaScript value bound to the parameter of the column
    [summary_type VARCHAR(50) CHECK (summary_type IN ('rolling', 'final',
    'key_points'))]: [undefined] and [null] are stored as [NULL], which
    the check lets pass; a string is stored when it is one of the three;
    every other value is sent as a text that is none of the three.
    [None] is a violation of the check. *)
Definition summary_type_column (v : value) : option (option string) :=
  match v with
  | VPrim PUndefined | VPrim PNull => Some None
  | VPrim (PStr s) =>
      if String.eqb s "rolling" || String.eqb s "final" || String.eqb s "key_points"
      then Some (Some s) else None
  | _ => None
  end.

(** [INSERT INTO summaries (session_id, summary_type, content, key_points,
    action_items, created_at) VALUES ($1, $2, $3, $4, $5, NOW())
    RETURNING *]. The serial is drawn first; the row is stored when the
    session exists and the check on [summary_type] passes, and the
    statement fails ([None]) otherwise. The two JSONB columns receive
    [JSON.stringify] of an array of strings and are read back as that
    array. *)
Definition insert_summary (d : db) (sessionId : Z) (summaryType : value)
    (content : string) (keyPoints actionItems : list string) : option summary_row * db :=
  let id := summaries_id_seq d + 1 in
  let failed := mkDb (users d) (sessions d) (session_participants d)
                  (transcripts d) (summaries d) id (now d) in
  if existsb (fun s => s_id s =? sessionId) (sessions d) then
    match summary_type_column summaryType with
    | Some ty =>
        let row := mkSummaryRow id (Some sessionId) ty
                     content keyPoints actionItems (now d) in
        (Some row, mkDb (users d) (sessions d) (session_participants d)
                     (transcripts d) (summaries d ++ [row])%list id (now d))
    | None => (None, failed)
    end
  else (None, failed).

End Db.

(** ** [server.js] as a module: what the route files get from it

    [server.js] requires the three route files while it runs (lines 158
    to 160 of the file that holds it) and assigns [module.exports = { app,
    server, io, pool }] on its last line (222). Each route file runs
    [const { pool } = require('../server')] when it is loaded; [require]
    of a module that is still running returns the exports that the module
    has so far. *)

Module ServerModule.

(** The pool of connections to the database. *)
Inductive Pool : Type := PgPool.

(** The names of the properties of [module.exports] once the line [line]
    has run. *)
Definition exports_after (line : nat) : list string :=
  if (222 <=? line)%nat then ["app"; "server"; "io"; "pool"] else [].

(** The line whose [require] loads the first route file; the others
    follow on the next two lines. *)
Definition routes_required_on : nat := 158.

(** [const { pool } = exports]: the pool, or [undefined] ([None]). *)
Definition destructure_pool (exports : list string) : option Pool :=
  if existsb (String.eqb "pool") exports then Some PgPool else None.

(** The binding [pool] of the route files, made while line 158 runs. *)
Definition routes_pool : option Pool :=
  destructure_pool (exports_after (routes_required_on - 1)).

End ServerModule.

(** ** The routes

    Every route calls [pool.query] inside a [try] whose [catch] answers
    500. [pool] is the binding of the route file: when it is [undefined]
    the call throws a [TypeError]. An identifier bound to a parameter
    that is compared with or stored in an INTEGER column makes the
    statement fail when it is outside the range of that type. *)

Module Routes.
Import JS JSString GeminiService Db ServerModule.

Inductive body : Type :=
| ErrorBody (error : string)
| MessageBody (message : string)
| SummaryBody (row : summary_row).

Record response : Type := mkResponse {
  status : Z;
  json : body
}.

(** [routes/sessions.js], [router.post('/:id/join', verifyToken, ...)].
    [sessionId] is the integer that [req.params.id] denotes and [userId]
    the one that [verifyToken] left in [req.user.userId]. A statement
    that fails is caught and answered with 500. *)
Definition join_session (pool : option Pool) (d : db) (sessionId userId : Z)
    : response * db :=
  match pool with
  | None => (mkResponse 500 (ErrorBody "Internal server error"), d)
  | Some _ =>
      if negb (in_int4 sessionId) then
        (mkResponse 500 (ErrorBody "Internal server error"), d)
      else
        let session := sessions_with_status d sessionId "active" in
        if (List.length session =? 0)%nat then
          (mkResponse 404 (ErrorBody "Session not found or not active"), d)
        else if negb (in_int4 userId) then
          (mkResponse 500 (ErrorBody "Internal server error"), d)
        else
          let existingParticipant := participants_of d sessionId userId in
          if (0 <? List.length existingParticipant)%nat then
            (mkResponse 400 (ErrorBody "Already joined this session"), d)
          else
            match insert_participant d sessionId userId with
            | Some d' =>
                (mkResponse 200 (MessageBody "Successfully joined session"), d')
            | None => (mkResponse 500 (ErrorBody "Internal server error"), d)
            end
  end.

(** The transcripts that stand in for a session without any. *)
Definition mock_transcripts : list string := [
  "Welcome to our virtual conference session. Today we will be discussing the latest advancements in AI technology.";
  "The first topic is machine learning algorithms and their applications in business processes.";
  "Participants are sharing their experiences with implementing AI solutions in various industries.";
  "Key challenges include data quality, integration with existing systems, and ethical considerations.";
  "The discussion is progressing well with good engagement from all attendees."
].

(** [routes/transcripts.js], [router.post('/summaries', verifyToken, ...)],
    with [sessionId] and [summaryType] read from [req.body]. *)
Definition add_summary (pool : option Pool) (d : db) (userId sessionId : Z)
    (summaryType : value) : response * db :=
  match pool with
  | None => (mkResponse 500 (ErrorBody "Internal server error"), d)
  | Some _ =>
      if negb (in_int4 sessionId && in_int4 userId) then
        (mkResponse 500 (ErrorBody "Internal server error"), d)
      else
        let accessCheck := access_check d sessionId userId in
        if (List.length accessCheck =? 0)%nat then
          (mkResponse 403 (ErrorBody "Access denied to this session"), d)
        else
          let transcripts := transcript_texts d sessionId in
          let transcripts :=
            if (List.length transcripts =? 0)%nat then mock_transcripts
            else transcripts in
          match settled (generateSummary transcripts summaryType) with
          | Throws _ => (mkResponse 500 (ErrorBody "Internal server error"), d)
          | Returns summaryData =>
              match insert_summary d sessionId summaryType (content summaryData)
                      (keyPoints summaryData) (actionItems summaryData) with
              | (Some row, d') => (mkResponse 201 (SummaryBody row), d')
              | (None, d') => (mkResponse 500 (ErrorBody "Internal server error"), d')
              end
          end
  end.

End Routes.

(** ** The packets that the front end sends

    [components/Dashboard.js] and [components/ChatPanel.js]; [socket] is
    the id of the connected socket, if there is one. *)

Module Client.
Import JS SocketIO Server JSString.

(** [Dashboard.joinSession(sessionId)] *)
Definition joinSession (socket : option socket_id) (sessionId : Z) : list input :=
  match socket with
  | Some id => [Packet id "join-session" [num sessionId]]
  | None => []
  end.

(** [Dashboard.leaveSession()], [currentSession] being the id of the
    current session. *)
Definition leaveSession (socket : option socket_id) (currentSession : option Z) : list input :=
  match socket, currentSession with
  | Some id, Some s => [Packet id "leave-session" [num s]]
  | _, _ => []
  end.

(** [ChatPanel.sendMessage]; [now_iso] is [new Date().toISOString()] on
    the client. *)
Definition sendMessage (socket : option socket_id) (session_id : Z)
    (user_id : prim) (user_name newMessage now_iso : string) : list input :=
  if String.eqb (trim newMessage) "" then []
  else
    let messageData := VObj [
      ("sessionId", num session_id);
      ("userId", VPrim user_id);
      ("userName", str user_name);
      ("text", str (trim newMessage));
      ("timestamp", str now_iso);
      ("type", str "message") ] in
    match socket with
    | Some id => [Packet id "chat-message" [messageData]]
    | None => []
    end.

(** [ChatPanel.handleTyping], [text] being the content of the input. *)
Definition handleTyping (socket : option socket_id) (session_id : Z)
    (user_id : prim) (text : string) : list input :=
  match socket with
  | Some id =>
      [Packet id "typing" [VObj [
         ("sessionId", num session_id);
         ("userId", VPrim user_id);
         ("isTyping", VPrim (PBool (0 <? String.length text)%nat)) ]]]
  | None => []
  end.

End Client.

Import JS SocketIO Server GeminiService Db ServerModule Routes.

(** ** States and inputs of the examples *)

(** Two sockets in the room of session 1, a third one outside it. *)
Definition two_in_room : adapter :=
  fst (run SocketIO.empty
         ([Connect "c1"; Connect "c2"; Connect "c3"] ++
          Client.joinSession (Some "c1") 1 ++
          Client.joinSession (Some "c2") 1)%list).

(** A database with one user, who hosts the one active session, and no
    transcript. *)
Definition one_session : db :=
  mkDb [7] [mkSession 1 (Some 7) (Some "active")] [] [] [] 0 1000.

Definition hello (now_iso : string) : value :=
  VObj [("sessionId", num 1); ("userId", num 7); ("userName", str "Ann");
        ("text", str "hi"); ("timestamp", str now_iso); ("type", str "message")].

(** Two users, the first hosting the active session, the second a
    participant of it and the author of two summaries. *)
Definition busy_session : db :=
  mkDb [7; 8] [mkSession 1 (Some 7) (Some "active")]
    [mkParticipant (Some 1) (Some 8) 900] []
    [mkSummaryRow 1 (Some 1) (Some "rolling") "first" [] [] 950;
     mkSummaryRow 2 (Some 1) (Some "final") "second" [] [] 960]
    2 1000.

(** The same, the session having ended. *)
Definition ended_session : db :=
  mkDb [7] [mkSession 1 (Some 7) (Some "ended")] [] [] [] 0 1000.

(** The value of [timestamp] in each packet written by a listener run. *)
Definition delivered_timestamps (out : list emission) : list (option value) :=
  (fun em => get (em_data em) "timestamp") <$> out.

(** ** Predicates on the inputs of a run *)

Definition is_disconnect (i : input) : bool :=
  match i with Disconnect _ => true | _ => false end.

(** The input comes from the socket [id]: its connection or one of its
    packets. *)
Definition is_from (id : socket_id) (i : input) : bool :=
  match i with
  | Connect id' | Packet id' _ _ => bool_decide (id' = id)
  | Disconnect _ => false
  end.

(** The content of the summary that a call returned. *)
Definition content_of (c : call summary) : option string :=
  match settled c with
  | Returns summaryData => Some (content summaryData)
  | Throws _ => None
  end.

(** Every listener that the run calls returns: none throws, none is
    given a room name outside the model. *)
Fixpoint completes (a : adapter) (ins : list input) : bool :=
  match ins with
  | [] => true
  | i :: ins' =>
      match step a i with
      | Done a' _ => completes a' ins'
      | _ => false
      end
  end.

(** The names under which the server emits. *)
Definition emitted_names : list string :=
  ["caption-update"; "chat-message"; "summary-update"].

(** ** Searching in strings *)

Module StringSearch.

(** What follows [pat] in [s] when [s] starts with [pat]. *)
Fixpoint strip_prefix (pat s : string) : option string :=
  match pat with
  | EmptyString => Some s
  | String p pat' =>
      match s with
      | String c s' => if Ascii.eqb p c then strip_prefix pat' s' else None
      | EmptyString => None
      end
  end.

(** [s.replace(pat, rep)] for a string [pat] and a replacement without
    dollar sign: the first occurrence of [pat] is replaced. *)
Fixpoint replace (pat rep s : string) : string :=
  match strip_prefix pat s with
  | Some rest => rep ++ rest
  | None =>
      match s with
      | EmptyString => EmptyString
      | String c s' => String c (replace pat rep s')
      end
  end.

(** [s.includes(needle)] *)
Fixpoint includes (needle s : string) : bool :=
  match strip_prefix needle s with
  | Some _ => true
  | None =>
      match s with
      | EmptyString => false
      | String _ s' => includes needle s'
      end
  end.

(** [[...s]]: the characters of a string, each a string. *)
Fixpoint chars (s : string) : list string :=
  match s with
  | EmptyString => []
  | String c s' => String c EmptyString :: chars s'
  end.

End StringSearch.

(** ** [middleware/auth.js] *)

Module Middleware.
Import JS Routes StringSearch.

(** [req.user] *)
Record user : Type := mkUser {
  userId : value;
  email : value;
  firstName : value;
  lastName : value
}.

(** A property of an object given by its property list. *)
Definition prop (fields : list (string * value)) (k : string) : value :=
  default undefined (lookup_field k fields).

Section Clerk.

(** [clerkVerifyToken(token)] of the Clerk SDK: the payload of the token,
    an object, or [None] when the promise is rejected. *)
Variable clerkVerifyToken : string → option (list (string * value)).

(** [verifyToken], [authorization] being [req.header('Authorization')].
    [inr] is the user with which [next()] is called. *)
Definition verifyToken (authorization : option string) : response + user :=
  match authorization with
  | None => inl (mkResponse 401 (ErrorBody "Access denied"))
  | Some header =>
      let token := replace "Bearer " "" header in
      if String.eqb token "" then inl (mkResponse 401 (ErrorBody "Access denied"))
      else
        match clerkVerifyToken token with
        | Some payload =>
            inr (mkUser (prop payload "sub") (prop payload "email")
                   (prop payload "firstName") (prop payload "lastName"))
        | None => inl (mkResponse 400 (ErrorBody "Invalid token"))
        end
  end.

End Clerk.

End Middleware.

(** ** [routes/sessions.js] and [routes/transcripts.js]: further routes *)

Module MoreRoutes.
Import JS Db ServerModule Routes.

(** The answer of a route that sends rows. *)
Inductive answer (A : Type) : Type :=
| Json (status : Z) (data : A)
| Error (status : Z) (error : string).
Arguments Json {A} status data.
Arguments Error {A} status error.



(** A JavaScript value bound to the parameter of the column
    [status VARCHAR(50) CHECK (status IN ('active', 'ended', 'paused'))],
    read like [summary_type_column]. *)
Definition status_column (v : value) : option (option string) :=
  match v with
  | VPrim PUndefined | VPrim PNull => Some None
  | VPrim (PStr s) =>
      if String.eqb s "active" || String.eqb s "ended" || String.eqb s "paused"
      then Some (Some s) else None
  | _ => None
  end.

(** [host_id !== userId], [host_id] being an INTEGER column, read as a
    number or as [null], and [userId] what [verifyToken] left in
    [req.user.userId]. *)
Definition strict_ne_column (host_id : option Z) (userId : prim) : bool :=
  match host_id, userId with
  | Some n, PNum m => negb (n =? m)
  | None, PNull => false
  | _, _ => true
  end.

(** [UPDATE sessions SET status = $1, updated_at = NOW() WHERE id = $2] *)
Definition set_status (d : db) (sessionId : Z) (status : option string) : db :=
  mkDb (users d)
    (List.map
       (fun s => if s_id s =? sessionId
                 then mkSession (s_id s) (s_host_id s) status else s)
       (sessions d))
    (session_participants d) (transcripts d) (summaries d)
    (summaries_id_seq d) (now d).

(** [router.patch('/:id/status', verifyToken, ...)], with [status] read
    from [req.body]. *)
Definition update_status (pool : option Pool) (d : db) (sessionId : Z)
    (userId : prim) (status : value) : response * db :=
  match pool with
  | None => (mkResponse 500 (ErrorBody "Internal server error"), d)
  | Some _ =>
      if negb (in_int4 sessionId) then
        (mkResponse 500 (ErrorBody "Internal server error"), d)
      else
        let hostResult :=
          List.map s_host_id
            (List.filter (fun s => s_id s =? sessionId) (sessions d)) in
        match hostResult with
        | [] => (mkResponse 403 (ErrorBody "Only session host can update status"), d)
        | host_id :: _ =>
            if strict_ne_column host_id userId then
              (mkResponse 403 (ErrorBody "Only session host can update status"), d)
            else
              match status_column status with
              | Some st =>
                  (mkResponse 200 (MessageBody "Session status updated successfully"),
                   set_status d sessionId st)
              | None => (mkResponse 500 (ErrorBody "Internal server error"), d)
              end
        end
  end.





End MoreRoutes.

(** ** [routes/transcripts.js]: the language preferences

    The table [language_preferences] has at most one row for a user
    ([UNIQUE] on [user_id]) and is kept as a map from the user to the row.
    The languages are typed as the front end sends them: a string or
    nothing for [inputLanguage], an array of strings or nothing for
    [outputLanguages]. *)

Module Preferences.
Import JS Db ServerModule MoreRoutes.






Definition has_nul (s : string) : bool :=
  existsb (fun c => (nat_of_ascii c =? 0)%nat) (list_ascii_of_string s).

Definition all_blank (s : string) : bool :=
  forallb (fun c => (nat_of_ascii c =? 32)%nat) (list_ascii_of_string s).

(** A string stored in a column [VARCHAR(n)]: a string with a zero
    character is refused; a string of more than [n] characters is refused
    unless the characters in excess are spaces, which are cut off. *)
Definition varchar (n : nat) (s : string) : option string :=
  if has_nul s then None
  else if (String.length s <=? n)%nat then Some s
  else if all_blank (String.substring n (String.length s - n) s)
       then Some (String.substring 0 n s)
       else None.



End Preferences.

(** ** [components/LanguageSelector.js] *)

Module LanguageSelector.
Import JS StringSearch.

(** The state [preferences] is an object, given by its property list. *)
Definition initial_preferences : list (string * value) :=
  [("inputLanguage", str "en"); ("outputLanguages", VArr [str "en"])].

(** [{ ...fields, k: v }] *)
Fixpoint set_field (k : string) (v : value) (fields : list (string * value))
    : list (string * value) :=
  match fields with
  | [] => [(k, v)]
  | (k', v') :: fields' =>
      if String.eqb k k' then (k, v) :: fields'
      else (k', v') :: set_field k v fields'
  end.

(** [handleInputLanguageChange(language)]: the preferences passed to
    [updatePreferences]. *)
Definition handleInputLanguageChange (preferences : list (string * value))
    (language : string) : list (string * value) :=
  set_field "inputLanguage" (str language) preferences.

(** [handleOutputLanguageToggle(language)]: the preferences passed to
    [updatePreferences], or [None] when a [TypeError] is thrown. *)
Definition handleOutputLanguageToggle (preferences : list (string * value))
    (language : string) : option (list (string * value)) :=
  match default undefined (lookup_field "outputLanguages" preferences) with
  | VArr items =>
      let newOutputLanguages :=
        if existsb (fun l => strict_eq_str l language) items
        then List.filter (fun l => negb (strict_eq_str l language)) items
        else (items ++ [str language])%list in
      Some (set_field "outputLanguages" (VArr newOutputLanguages) preferences)
  | VPrim (PStr s) =>
      if includes language s then None
      else Some (set_field "outputLanguages"
                   (VArr (List.map str (chars s) ++ [str language])%list) preferences)
  | _ => None
  end.

End LanguageSelector.

(** ** [routes/auth.js]: registration and login

    The table [users] is kept with the columns that the two routes read
    and write. The fields of the body are typed: a string or nothing. *)

Module Auth.
Import JS ServerModule Preferences.

Record user_row : Type := mkUserRow {
  u_id : Z;
  u_name : string;
  u_email : string;
  u_password_hash : option string;
  u_role : option string
}.

(** The object [user] of an answer. *)
Record public_user : Type := mkPublicUser {
  pu_id : Z;
  pu_email : string;
  pu_name : string;
  pu_role : option string
}.

Inductive auth_answer : Type :=
| Authenticated (status : Z) (token : string) (user : public_user)
| Refused (status : Z) (error : string).

(** [SELECT * FROM users WHERE email = $1]; nothing is equal to NULL. *)
Definition users_with_email (users : list user_row) (email : option string) : list user_row :=
  match email with
  | Some e => List.filter (fun u => String.eqb (u_email u) e) users
  | None => []
  end.

(** The column [role VARCHAR(50) CHECK (role IN ('viewer', 'moderator',
    'host'))] for a string. *)
Definition role_column (role : string) : option string :=
  if String.eqb role "viewer" || String.eqb role "moderator" || String.eqb role "host"
  then Some role else None.

Section Libraries.

(** [bcrypt.hash(password, 10)] and [bcrypt.compare(password, hash)] on
    strings. On anything else both throw. *)
Variable bcrypt_hash : string → string.
Variable bcrypt_compare : string → string → bool.

(** [jwt.sign({ userId, email, role }, JWT_SECRET, { expiresIn: '24h' })] *)
Variable jwt_sign : Z → string → option string → string.

(** [INSERT INTO users (name, email, password_hash, role, created_at)
    VALUES ($1, $2, $3, $4, NOW()) RETURNING id, name, email, role], with
    [serial] the number that the sequence of [id] yields; [None] when the
    statement fails: a column NOT NULL without a value, a string that
    does not fit its column, a role that is not allowed, an email that is
    taken. *)
Definition insert_user (users : list user_row) (serial : Z)
    (name email : option string) (passwordHash role : string) : option user_row :=
  match name, email with
  | Some name, Some email =>
      match varchar 255 name, varchar 255 email, varchar 255 passwordHash,
            role_column role with
      | Some name', Some email', Some hash', Some role' =>
          if existsb (fun u => String.eqb (u_email u) email') users then None
          else Some (mkUserRow serial name' email' (Some hash') (Some role'))
      | _, _, _, _ => None
      end
  | _, _ => None
  end.

(** [router.post('/register', ...)], with [name], [email], [password] and
    [role] read from [req.body]. *)
Definition register (pool : option Pool) (users : list user_row) (serial : Z)
    (name email password role : option string) : auth_answer * list user_row :=
  let role := default "viewer" role in
  match pool with
  | None => (Refused 500 "Internal server error", users)
  | Some _ =>
      if existsb has_nul (option_list email) then
        (Refused 500 "Internal server error", users)
      else if (0 <? List.length (users_with_email users email))%nat then
        (Refused 400 "User already exists", users)
      else
        match password with
        | None => (Refused 500 "Internal server error", users)
        | Some password =>
            let passwordHash := bcrypt_hash password in
            match insert_user users serial name email passwordHash role with
            | Some row =>
                (Authenticated 201
                   (jwt_sign (u_id row) (default "" email) (Some role))
                   (mkPublicUser (u_id row) (u_email row) (u_name row) (u_role row)),
                 (users ++ [row])%list)
            | None => (Refused 500 "Internal server error", users)
            end
        end
  end.


End Libraries.

End Auth.

(** ** The rooms *)

Section Rooms.
Implicit Types (a : adapter) (id : socket_id) (r : room).

Lemma members_join a id r : members (join a id r) r = {[id]} ∪ members a r.
Proof. unfold members at 1, join; simpl. by rewrite lookup_insert_eq. Qed.

Lemma members_join_other a id r r' :
  r ≠ r' → members (join a id r) r' = members a r'.
Proof. intros Hne. unfold members, join; simpl. by rewrite lookup_insert_ne. Qed.

Lemma elem_of_members_join a id id' r r' :
  id' ∈ members (join a id r) r' ↔ id' ∈ members a r' ∨ (id' = id ∧ r' = r).
Proof.
  destruct (decide (r = r')) as [<-|Hne].
  - rewrite members_join. set_solver.
  - rewrite members_join_other by done. naive_solver.
Qed.

Lemma join_join a id r : join (join a id r) id r = join a id r.
Proof.
  unfold join at 1 3; simpl. rewrite members_join. f_equal.
  rewrite insert_insert_eq. f_equal. set_solver.
Qed.

End Rooms.

(** ** The listeners *)

Lemma listener_domain_event (e : domain_event) :
  listener (event_name e) = Some (re_emit (event_name e)).
Proof. by destruct e. Qed.

Lemma on_packet_domain_event (e : domain_event) a id args :
  on_packet a id (event_name e) args = re_emit (event_name e) a id (arg0 args).
Proof. unfold on_packet. by rewrite listener_domain_event. Qed.

Lemma on_packet_join_session a id (r : room) :
  on_packet a id "join-session" [VPrim r] = Done (join a id r) [].
Proof. reflexivity. Qed.

(** The server has no listener for ['leave-session'] nor for ['typing']. *)
Lemma on_packet_leave_session a id args :
  on_packet a id "leave-session" args = Done a [].
Proof. reflexivity. Qed.

Lemma on_packet_typing a id args :
  on_packet a id "typing" args = Done a [].
Proof. reflexivity. Qed.

(** What a listener of a domain event emits, by cases on [data.sessionId]. *)
Lemma emitted_re_emit ev a id data :
  emitted (re_emit ev a id data) =
    match get data "sessionId" with
    | Some (VPrim r) => [mkEmission (members a r ∖ {[id]}) ev data]
    | _ => []
    end.
Proof.
  unfold re_emit. destruct (get data "sessionId") as [[p| |]|]; reflexivity.
Qed.

Lemma state_of_re_emit ev a id data : state_of (re_emit ev a id data) a = a.
Proof.
  unfold re_emit. destruct (get data "sessionId") as [[p| |]|]; reflexivity.
Qed.

(** ** C1 *)

(** C1. For each of the events caption-update, chat-message and
    summary-update that a connection [id] publishes with a payload whose
    [sessionId] names a room, the packet is written to the members of
    that room other than [id]; and whatever the payload, [id] is never
    among the sockets written to. *)
Theorem publish_excludes_sender (e : domain_event) (a : adapter)
    (id : socket_id) (args : list value) :
  on_packet a id (event_name e) args =
    match get (arg0 args) "sessionId" with
    | None => TypeError
    | Some (VPrim r) =>
        Done a [mkEmission (members a r ∖ {[id]}) (event_name e) (arg0 args)]
    | Some _ => NotARoomName
    end
  ∧ id ∉ recipients (on_packet a id (event_name e) args).
Proof.
  rewrite on_packet_domain_event. split.
  - unfold re_emit. destruct (get (arg0 args) "sessionId") as [[p| |]|]; reflexivity.
  - unfold recipients. rewrite emitted_re_emit.
    destruct (get (arg0 args) "sessionId") as [[p| |]|]; simpl; set_solver.
Qed.

(** ** C2 *)

(** C2 as stated does not hold: session 1 has ended, so no active session
    has this id, and the join of a socket to its room still adds the
    socket. *)
Lemma join_session_unchecked_cex :
  ¬ (∀ (d : db) (a : adapter) (id : socket_id) (sessionId : Z),
       sessions_with_status d sessionId "active" = [] →
       id ∉ members a (PNum sessionId) →
       id ∉ members (state_of (on_packet a id "join-session" [num sessionId]) a)
              (PNum sessionId)).
Proof.
  intros H.
  apply (H ended_session (connect SocketIO.empty "c1") "c1" 1).
  - reflexivity.
  - vm_compute. set_solver.
  - change ("c1" ∈ members (join (connect SocketIO.empty "c1") "c1" (PNum 1)) (PNum 1)).
    rewrite members_join. set_solver.
Qed.

(** C2, amended. A join-session never fails with InvalidRoom: the
    listener consults no session, so whether or not a session of that
    name exists or is active it returns without an error and adds the
    socket to the room of that name, creating the room if it is absent;
    the room then holds the socket and its former members, and every
    other room is as before. *)
Theorem join_session_unchecked (a : adapter) (id : socket_id) (r : room) :
  on_packet a id "join-session" [VPrim r] = Done (join a id r) []
  ∧ rooms (join a id r) !! r = Some ({[id]} ∪ members a r)
  ∧ members (join a id r) r = {[id]} ∪ members a r
  ∧ ∀ r', r' ≠ r → members (join a id r) r' = members a r'.
Proof.
  split; [reflexivity|]. split; [apply lookup_insert_eq|].
  split; [apply members_join|]. intros r' Hne. by apply members_join_other.
Qed.

(** ** C3 *)

(** C3 as stated does not hold: after joining the rooms sess-1 and sess-2
    in turn, a socket is a member of both. *)
Lemma single_room_cex :
  ¬ (∀ (ins : list input) (id : socket_id) (r1 r2 : room),
       id ∈ members (fst (run SocketIO.empty ins)) r1 →
       id ∈ members (fst (run SocketIO.empty ins)) r2 →
       r1 = r2)
  ∧ ¬ (∀ (a : adapter) (id : socket_id) (r1 r2 : room),
       r1 ≠ r2 →
       id ∈ members a r1 →
       id ∉ members (state_of (on_packet a id "join-session" [VPrim r2]) a) r1).
Proof.
  split.
  - intros H.
    specialize (H [Connect "c1"; Packet "c1" "join-session" [str "sess-1"];
                   Packet "c1" "join-session" [str "sess-2"]]
                  "c1" (PStr "sess-1") (PStr "sess-2")).
    assert (PStr "sess-1" = PStr "sess-2") as Heq; [|discriminate Heq].
    apply H; vm_compute; set_solver.
  - intros H.
    apply (H (join (connect SocketIO.empty "c1") "c1" (PStr "sess-1")) "c1"
             (PStr "sess-1") (PStr "sess-2")).
    + discriminate.
    + rewrite members_join. set_solver.
    + simpl. rewrite members_join_other by discriminate.
      rewrite members_join. set_solver.
Qed.

(** C3, amended. A connection may be a member of several rooms at once:
    a join adds a membership and keeps the former ones, so that after
    join(r2) by a connection that is in r1 the connection is a member of
    r2 and still a member of r1. *)
Theorem join_keeps_membership (a : adapter) (id : socket_id) (r1 r2 : room) :
  id ∈ members a r1 →
  id ∈ members (state_of (on_packet a id "join-session" [VPrim r2]) a) r1
  ∧ id ∈ members (state_of (on_packet a id "join-session" [VPrim r2]) a) r2.
Proof.
  intros Hin. rewrite on_packet_join_session. simpl.
  rewrite !elem_of_members_join. auto.
Qed.

Lemma join_keeps_membership_witness :
  "c1" ∈ members (state_of (on_packet two_in_room "c1" "join-session" [str "sess-2"])
                    two_in_room) (PNum 1)
  ∧ "c1" ∈ members (state_of (on_packet two_in_room "c1" "join-session" [str "sess-2"])
                      two_in_room) (PStr "sess-2").
Proof.
  apply (join_keeps_membership two_in_room "c1" (PNum 1) (PStr "sess-2")).
  vm_compute. set_solver.
Defined.

(** ** C4 *)

(** C4, on the code. The packet that [Dashboard.leaveSession] sends finds
    no listener: c1 leaves session 1, the rooms are as before, c1 is still
    a member, and the next chat message of c2 is written to c1. *)
Theorem leave_session_dropped :
  run two_in_room (Client.leaveSession (Some "c1") (Some 1)) = (two_in_room, [])
  ∧ "c1" ∈ members (fst (run two_in_room (Client.leaveSession (Some "c1") (Some 1))))
             (PNum 1)
  ∧ recipients
      (on_packet (fst (run two_in_room (Client.leaveSession (Some "c1") (Some 1))))
         "c2" "chat-message" [hello "2024-01-01T10:00:00.000Z"])
    = {["c1"]}.
Proof.
  split; [reflexivity|]. split.
  - vm_compute. set_solver.
  - vm_compute. reflexivity.
Qed.

(** ** C5 *)

Lemma members_connect_empty (id : socket_id) (r : room) :
  members (connect SocketIO.empty id) r = if decide (PStr id = r) then {[id]} else ∅.
Proof.
  unfold connect. case_decide as Heq.
  - subst r. rewrite members_join. unfold members; simpl.
    rewrite lookup_empty. simpl. set_solver.
  - rewrite members_join_other by done. unfold members; simpl.
    by rewrite lookup_empty.
Qed.

(** C5. Join is idempotent. The first join-session adds the socket to
    the room; the second one returns without an error and leaves every
    room as the first left it, so that the member set of the room after
    two joins is the one after a single join, the socket and the former
    members; and a socket that connects and joins a room twice in a row
    is counted once in it. *)
Theorem join_twice (a : adapter) (id : socket_id) (r : room) :
  on_packet a id "join-session" [VPrim r] = Done (join a id r) []
  ∧ on_packet (join a id r) id "join-session" [VPrim r] = Done (join a id r) []
  ∧ run a [Packet id "join-session" [VPrim r]; Packet id "join-session" [VPrim r]]
    = run a [Packet id "join-session" [VPrim r]]
  ∧ members
      (fst (run a [Packet id "join-session" [VPrim r];
                   Packet id "join-session" [VPrim r]])) r
    = {[id]} ∪ members a r
  ∧ members (join (join a id r) id r) r = members (join a id r) r
  ∧ size (members (join (join (connect SocketIO.empty id) id r) id r) r) = 1%nat
  ∧ size (members
            (fst (run SocketIO.empty
                    [Connect id; Packet id "join-session" [VPrim r];
                     Packet id "join-session" [VPrim r]])) r) = 1%nat.
Proof.
  assert (size (members (join (connect SocketIO.empty id) id r) r) = 1%nat) as Hone.
  { rewrite members_join, members_connect_empty. case_decide.
    - replace ({[id]} ∪ {[id]} : gset string) with ({[id]} : gset string)
        by set_solver.
      apply size_singleton.
    - replace ({[id]} ∪ ∅ : gset string) with ({[id]} : gset string) by set_solver.
      apply size_singleton. }
  split; [reflexivity|]. split; [by rewrite on_packet_join_session, join_join|].
  split; [simpl; by rewrite join_join|].
  split; [simpl; rewrite join_join; apply members_join|].
  split; [by rewrite join_join|].
  split; [by rewrite join_join|].
  simpl. by rewrite join_join.
Qed.

(** ** C6 *)

(** C6 as stated does not hold: two chat messages that reach the relay in
    the same state and differ in the time of the sender's clock alone are
    delivered with different timestamps, those of the sender. *)
Lemma relay_timestamp_cex :
  ¬ (∀ t1 t2 : string,
       delivered_timestamps
         (snd (run two_in_room (Client.sendMessage (Some "c1") 1 (PNum 7) "Ann" "hi" t1)))
       = delivered_timestamps
           (snd (run two_in_room (Client.sendMessage (Some "c1") 1 (PNum 7) "Ann" "hi" t2)))).
Proof.
  intros H.
  specialize (H "1999-12-31T23:59:59.000Z" "2024-01-01T10:00:00.000Z").
  vm_compute in H. discriminate H.
Qed.

(** C6, amended. The relay assigns no timestamp: every packet written for
    a caption-update, chat-message or summary-update carries, as its
    timestamp, the value of [timestamp] in the payload of the sender; and
    the chat message that [ChatPanel.sendMessage] sends carries the time
    of the sender's own clock. *)
Theorem relay_forwards_sender_timestamp (e : domain_event) (a : adapter)
    (id : socket_id) (args : list value)
    (socket : option socket_id) (session_id : Z) (user_id : prim)
    (user_name newMessage now_iso : string) :
  delivered_timestamps (emitted (on_packet a id (event_name e) args))
    = (fun _ => get (arg0 args) "timestamp") <$> emitted (on_packet a id (event_name e) args)
  ∧ Forall (fun i => match i with
                     | Packet _ _ args' => get (arg0 args') "timestamp" = Some (str now_iso)
                     | _ => False
                     end)
      (Client.sendMessage socket session_id user_id user_name newMessage now_iso).
Proof.
  split.
  - rewrite on_packet_domain_event, emitted_re_emit. unfold delivered_timestamps.
    destruct (get (arg0 args) "sessionId") as [[p| |]|]; reflexivity.
  - unfold Client.sendMessage.
    destruct (String.eqb _ ""); [constructor|].
    destruct socket; repeat constructor.
Qed.

(** ** C7 *)

(** The three events that have a listener are written under their own
    name and with the payload as it came. *)
Lemma re_emit_verbatim (e : domain_event) (a : adapter) (id : socket_id) (args : list value) :
  Forall (fun em => em_event em = event_name e ∧ em_data em = arg0 args)
    (emitted (on_packet a id (event_name e) args)).
Proof.
  rewrite on_packet_domain_event, emitted_re_emit.
  destruct (get (arg0 args) "sessionId") as [[p| |]|]; repeat constructor.
Qed.

(** C7, on the code. The typing indicator that [ChatPanel.handleTyping]
    sends finds no listener: with c1 and c2 in the room of session 1, the
    packet of c1 is written to nobody and the rooms are as before. *)
Theorem typing_dropped :
  run two_in_room (Client.handleTyping (Some "c1") 1 (PNum 7) "h") = (two_in_room, [])
  ∧ members two_in_room (PNum 1) ∖ {["c1"]} = {["c2"]}.
Proof. split; [reflexivity|]. vm_compute. reflexivity. Qed.

(** ** C8 *)

(** C8. A caption-update, chat-message or summary-update whose payload
    names a room in [sessionId] is written to the members of that room,
    with the payload as it came, also when the sender is not a member of
    the room: the whole room then receives it. *)
Theorem re_emit_without_membership (e : domain_event) (a : adapter)
    (id : socket_id) (data : value) (r : room) :
  get data "sessionId" = Some (VPrim r) →
  id ∉ members a r →
  on_packet a id (event_name e) [data]
    = Done a [mkEmission (members a r) (event_name e) data].
Proof.
  intros Hget Hnot. rewrite on_packet_domain_event. simpl.
  unfold re_emit. rewrite Hget. simpl. unfold to_emit.
  do 3 f_equal. set_solver.
Qed.

Lemma re_emit_without_membership_witness :
  on_packet two_in_room "c3" (event_name CaptionUpdate)
    [VObj [("sessionId", num 1); ("text", str "unsolicited")]]
  = Done two_in_room
      [mkEmission (members two_in_room (PNum 1)) (event_name CaptionUpdate)
         (VObj [("sessionId", num 1); ("text", str "unsolicited")])].
Proof.
  apply (re_emit_without_membership CaptionUpdate two_in_room "c3"
           (VObj [("sessionId", num 1); ("text", str "unsolicited")]) (PNum 1)).
  - reflexivity.
  - vm_compute. set_solver.
Defined.

(** ** C9 *)

(** The four other methods send one prompt to the model and settle with
    its answer. *)
Ltac with_prompt gen :=
  cbv zeta;
  match goal with
  | |- context [gen ?p] => exists p; destruct (gen p) as [answer|]
  end.

Lemma translateText_asks_model gen text targetLanguage sourceLanguage :
  ∃ prompt,
    prompts (translateText gen text targetLanguage sourceLanguage) = [prompt]
    ∧ settled (translateText gen text targetLanguage sourceLanguage)
      = match gen prompt with
        | Some answer => Returns (JSString.trim answer)
        | None => Throws "Failed to translate text"
        end.
Proof. unfold translateText. with_prompt gen; done. Qed.

Lemma clarifyContent_asks_model gen text context :
  ∃ prompt,
    prompts (clarifyContent gen text context) = [prompt]
    ∧ settled (clarifyContent gen text context)
      = match gen prompt with
        | Some answer => Returns (JSString.trim answer)
        | None => Throws "Failed to clarify content"
        end.
Proof. unfold clarifyContent. with_prompt gen; done. Qed.

Lemma transcribeAudio_asks_model gen audioBuffer language :
  ∃ prompt,
    prompts (transcribeAudio gen audioBuffer language) = [prompt]
    ∧ settled (transcribeAudio gen audioBuffer language)
      = match gen prompt with
        | Some answer => Returns (JSString.trim answer)
        | None => Returns transcription_fallback
        end.
Proof. unfold transcribeAudio. with_prompt gen; done. Qed.

Lemma generateGlossary_asks_model gen parse transcripts :
  ∃ prompt,
    prompts (generateGlossary gen parse transcripts) = [prompt]
    ∧ settled (generateGlossary gen parse transcripts)
      = match gen prompt with
        | Some answer => Returns (default (VObj []) (parse (JSString.trim answer)))
        | None => Throws "Failed to generate glossary"
        end.
Proof.
  unfold generateGlossary. with_prompt gen; [|done]. by destruct (parse _).
Qed.

(** [generateSummary] sends none and always returns. *)
Lemma generateSummary_local transcripts summaryType :
  prompts (generateSummary transcripts summaryType) = []
  ∧ ∃ summaryData, settled (generateSummary transcripts summaryType) = Returns summaryData.
Proof.
  unfold generateSummary.
  repeat match goal with |- context [if ?b then _ else _] => destruct b end;
    simpl; eauto.
Qed.

(** C9, on the code. [generateSummary] sends no prompt to the model: the
    rolling summary of the five stand-in transcripts is put together from
    their last fifteen words of more than two characters. *)
Theorem generateSummary_sends_no_prompt :
  generateSummary mock_transcripts (str "rolling")
  = mkCall
      (Returns
         (mkSummary
            "Recent developments: existing systems, and ethical considerations. The discussion progressing well with good engagement from all attendees.. The conversation is progressing well."
            [] []))
      [].
Proof. vm_compute. reflexivity. Qed.

(** ** C10 *)

(** A session that passes the access check is in the table [sessions]. *)
Lemma access_check_session (d : db) (sessionId userId : Z) :
  access_check d sessionId userId ≠ [] →
  existsb (fun s => s_id s =? sessionId) (sessions d) = true.
Proof.
  unfold access_check. induction (sessions d) as [|s l IH]; simpl; [done|].
  destruct (s_id s =? sessionId); simpl; [done|]. exact IH.
Qed.

Lemma access_check_length (d : db) (sessionId userId : Z) :
  access_check d sessionId userId ≠ [] →
  (List.length (access_check d sessionId userId) =? 0)%nat = false.
Proof. by destruct (access_check d sessionId userId). Qed.

(** What the body of the route does once its queries can run: with a pool
    bound, for identifiers in the range of INTEGER, a request that passes
    the access check for a session without transcripts is summarised from
    the five built-in transcripts; the row is stored and answered with
    201 when the type passes the check of the column, and the answer is
    500 otherwise. *)
Lemma add_summary_with_pool (d : db) (userId sessionId : Z) (summaryType : value) :
  in_int4 sessionId && in_int4 userId = true →
  access_check d sessionId userId ≠ [] →
  transcript_texts d sessionId = [] →
  ∃ summaryData,
    settled (generateSummary mock_transcripts summaryType) = Returns summaryData
    ∧ fst (add_summary (Some PgPool) d userId sessionId summaryType) =
        match summary_type_column summaryType with
        | Some ty =>
            mkResponse 201
              (SummaryBody
                 (mkSummaryRow (summaries_id_seq d + 1) (Some sessionId) ty
                    (content summaryData) (keyPoints summaryData)
                    (actionItems summaryData) (now d)))
        | None => mkResponse 500 (ErrorBody "Internal server error")
        end.
Proof.
  intros Hrange Hacc Hnone.
  destruct (generateSummary_local mock_transcripts summaryType) as [_ [sd Hsd]].
  exists sd. split; [exact Hsd|].
  unfold add_summary. rewrite Hrange. simpl negb. cbv iota.
  rewrite (access_check_length _ _ _ Hacc), Hnone. simpl List.length. simpl Nat.eqb.
  cbv iota. rewrite Hsd. unfold insert_summary.
  rewrite (access_check_session _ _ _ Hacc).
  by destruct (summary_type_column summaryType).
Qed.

(** C10, on the code. [routes/transcripts.js] binds [pool] while
    [server.js] is still being loaded: the binding is undefined, the
    first query throws, and the request of the host of session 1, which
    has no transcript, for a final summary is answered with 500 instead
    of 201; so is every request, and none stores a summary. *)
Theorem add_summary_pool_undefined :
  routes_pool = None
  ∧ add_summary routes_pool one_session 7 1 (str "final")
    = (mkResponse 500 (ErrorBody "Internal server error"), one_session)
  ∧ ∀ (d : db) (userId sessionId : Z) (summaryType : value),
      add_summary routes_pool d userId sessionId summaryType
      = (mkResponse 500 (ErrorBody "Internal server error"), d).
Proof. repeat split. Qed.

(** ** The relay along a run *)

Section Runs.
Implicit Types (a : adapter) (id : socket_id) (r : room) (ins : list input).

(** A listener either leaves the rooms alone or joins its own socket to
    one room; what it emits bears the name of the event it listens to and
    is never written to its own socket. *)
Lemma on_packet_cases a id ev args a' out :
  on_packet a id ev args = Done a' out →
  (a' = a ∨ ∃ r, a' = join a id r)
  ∧ Forall (fun em => em_event em = ev ∧ ev ∈ emitted_names
                      ∧ ∃ r, em_to em = members a r ∖ {[id]}) out.
Proof.
  unfold on_packet, listener.
  repeat match goal with
         | |- context [String.eqb ev ?s] =>
             destruct (String.eqb_spec ev s) as [->|?]
         end.
  - unfold on_join_session. destruct (as_room _) as [r|]; [|done].
    intros [= <- <-]. split; [eauto|constructor].
  - unfold on_caption_update, re_emit.
    destruct (get _ _) as [v|]; [|done]. destruct (as_room v) as [r|]; [|done].
    intros [= <- <-]. split; [by left|].
    constructor; [|constructor]. split; [done|].
    split; [unfold emitted_names; set_solver|by exists r].
  - unfold on_chat_message, re_emit.
    destruct (get _ _) as [v|]; [|done]. destruct (as_room v) as [r|]; [|done].
    intros [= <- <-]. split; [by left|].
    constructor; [|constructor]. split; [done|].
    split; [unfold emitted_names; set_solver|by exists r].
  - unfold on_summary_update, re_emit.
    destruct (get _ _) as [v|]; [|done]. destruct (as_room v) as [r|]; [|done].
    intros [= <- <-]. split; [by left|].
    constructor; [|constructor]. split; [done|].
    split; [unfold emitted_names; set_solver|by exists r].
  - intros [= <- <-]. split; [by left|constructor].
Qed.

Lemma members_connect a id r :
  members (connect a id) r = members a r ∪ (if decide (PStr id = r) then {[id]} else ∅).
Proof.
  unfold connect. case_decide as Heq.
  - subst r. rewrite members_join. unfold members; simpl. set_solver.
  - rewrite members_join_other by done. unfold members; simpl. set_solver.
Qed.

Lemma members_leave_all a id r :
  members (leave_all a id) r = members a r ∖ {[id]}.
Proof.
  unfold members, leave_all; simpl. rewrite lookup_omap.
  destruct (rooms a !! r) as [ms|]; simpl; [|set_solver].
  unfold drop_member. case_decide as Hempty; simpl; [|done]. by rewrite Hempty.
Qed.

Lemma run_cons a i ins :
  run a (i :: ins) =
    match step a i with
    | Done a' out => (fst (run a' ins), (out ++ snd (run a' ins))%list)
    | _ => (a, [])
    end.
Proof. simpl. destruct (step a i); [|done..]. by destruct (run _ ins). Qed.

(** X1. No listener ever takes a socket out of a room: along a run in
    which every listener returns and no transport closes, the member set
    of every room only grows. *)
Theorem run_keeps_members a ins r :
  completes a ins = true →
  Forall (fun i => is_disconnect i = false) ins →
  members a r ⊆ members (fst (run a ins)) r.
Proof.
  intros Hdone Hins. revert a Hdone.
  induction Hins as [|i ins Hi _ IH]; intros a Hdone; [done|].
  rewrite run_cons. simpl in Hdone.
  destruct (step a i) as [a' out| |] eqn:Hstep; [|done..].
  simpl. etrans; [|by apply IH].
  destruct i as [id|id ev args|id]; simpl in Hstep; [| |done].
  - injection Hstep as <- <-. rewrite members_connect. set_solver.
  - apply on_packet_cases in Hstep as [[->|[r' ->]] _]; [done|].
    intros x Hx. apply elem_of_members_join. by left.
Qed.

Lemma run_keeps_members_witness :
  members two_in_room (PNum 1)
  ⊆ members (fst (run two_in_room
       [Packet "c1" "leave-session" [num 1]; Packet "c3" "join-session" [num 1]]))
      (PNum 1).
Proof.
  apply (run_keeps_members two_in_room
           [Packet "c1" "leave-session" [num 1]; Packet "c3" "join-session" [num 1]]
           (PNum 1)).
  - reflexivity.
  - repeat constructor.
Defined.

(** X2. Whatever the clients send, as long as every listener returns, the
    server emits under the names caption-update, chat-message and
    summary-update alone: a join, a connection or the closing of a
    transport is announced to nobody. *)
Theorem run_emits_domain_events a ins :
  completes a ins = true →
  Forall (fun em => em_event em ∈ emitted_names) (snd (run a ins)).
Proof.
  revert a. induction ins as [|i ins IH]; intros a Hdone; [constructor|].
  rewrite run_cons. simpl in Hdone.
  destruct (step a i) as [a' out| |] eqn:Hstep; [|done..].
  simpl. apply Forall_app. split; [|by apply IH].
  destruct i as [id|id ev args|id]; simpl in Hstep.
  - injection Hstep as <- <-. constructor.
  - apply on_packet_cases in Hstep as [_ Hout].
    eapply Forall_impl; [exact Hout|]. by intros em (-> & ? & _).
  - injection Hstep as <- <-. constructor.
Qed.

Lemma run_emits_domain_events_witness :
  Forall (fun em => em_event em ∈ emitted_names)
    (snd (run two_in_room
            [Packet "c3" "join-session" [num 1];
             Packet "c1" "chat-message" [hello "2024-01-01T10:00:00.000Z"];
             Disconnect "c2"])).
Proof.
  apply (run_emits_domain_events two_in_room
           [Packet "c3" "join-session" [num 1];
            Packet "c1" "chat-message" [hello "2024-01-01T10:00:00.000Z"];
            Disconnect "c2"]).
  reflexivity.
Defined.

(** X3. Once the transport of a socket has closed, which takes the socket
    out of its rooms, nothing is written to that socket for as long as it
    neither connects anew nor sends a packet, whoever publishes to the
    rooms it was in, and whether the run goes on to its end or is cut
    short by a listener that throws. *)
Theorem run_after_disconnect a id ins :
  Forall (fun i => is_from id i = false) ins →
  Forall (fun em => id ∉ em_to em) (snd (run (leave_all a id) ins)).
Proof.
  intros Hins.
  assert (∀ r, id ∉ members (leave_all a id) r) as Hinv
    by (intros r; rewrite members_leave_all; set_solver).
  revert Hinv. generalize (leave_all a id) as b.
  induction Hins as [|i ins Hi _ IH]; intros b Hinv; [constructor|].
  rewrite run_cons.
  destruct (step b i) as [b' out| |] eqn:Hstep; [|constructor..].
  simpl. apply Forall_app.
  destruct i as [id'|id' ev args|id']; simpl in Hstep, Hi.
  - injection Hstep as <- <-. split; [constructor|]. apply IH.
    intros r. rewrite members_connect. apply bool_decide_eq_false in Hi.
    specialize (Hinv r). case_decide; set_solver.
  - apply bool_decide_eq_false in Hi.
    apply on_packet_cases in Hstep as [Hstate Hout]. split.
    + eapply Forall_impl; [exact Hout|].
      intros em (_ & _ & r & ->). specialize (Hinv r). set_solver.
    + apply IH. destruct Hstate as [->|[r' ->]]; [done|].
      intros r. rewrite elem_of_members_join. specialize (Hinv r). naive_solver.
  - injection Hstep as <- <-. split; [constructor|]. apply IH.
    intros r. rewrite members_leave_all. specialize (Hinv r). set_solver.
Qed.

Lemma run_after_disconnect_witness :
  Forall (fun em => "c1" ∉ em_to em)
    (snd (run (leave_all two_in_room "c1")
            [Packet "c2" "chat-message" [hello "2024-01-01T10:00:00.000Z"];
             Packet "c3" "caption-update" [hello "2024-01-01T10:00:01.000Z"]])).
Proof.
  apply (run_after_disconnect two_in_room "c1"
           [Packet "c2" "chat-message" [hello "2024-01-01T10:00:00.000Z"];
            Packet "c3" "caption-update" [hello "2024-01-01T10:00:01.000Z"]]).
  repeat constructor.
Defined.

End Runs.

(** ** The middleware [verifyToken] *)

Import StringSearch Middleware.

Lemma strip_prefix_app (pat t : string) : strip_prefix pat (pat ++ t) = Some t.
Proof. induction pat as [|p pat IH]; simpl; [done|]. by rewrite Ascii.eqb_refl. Qed.

Lemma strip_prefix_Some (pat s rest : string) :
  strip_prefix pat s = Some rest → s = (pat ++ rest)%string.
Proof.
  revert s. induction pat as [|p pat IH]; intros s; simpl; [by intros [= ->]|].
  destruct s as [|c s]; [done|].
  destruct (Ascii.eqb_spec p c) as [->|]; [|done].
  intros H. by rewrite (IH _ H).
Qed.

Lemma replace_unfold (pat rep s : string) :
  replace pat rep s =
    match strip_prefix pat s with
    | Some rest => (rep ++ rest)%string
    | None =>
        match s with
        | EmptyString => EmptyString
        | String c s' => String c (replace pat rep s')
        end
    end.
Proof. by destruct s. Qed.

(** A string without any space holds no occurrence of a pattern that has
    one. *)
Lemma replace_bearer_no_space (h : string) :
  Forall (fun c => c ≠ " "%char) (list_ascii_of_string h) →
  replace "Bearer " "" h = h.
Proof.
  induction h as [|c h IH]; intros Hh; [done|].
  rewrite replace_unfold.
  destruct (strip_prefix "Bearer " (String c h)) as [rest|] eqn:Hpre.
  - apply strip_prefix_Some in Hpre. rewrite Hpre in Hh.
    simpl in Hh. do 6 apply Forall_cons_1, proj2 in Hh.
    by apply Forall_cons_1, proj1 in Hh.
  - f_equal. apply IH. simpl in Hh. by apply Forall_cons_1, proj2 in Hh.
Qed.

(** X4. A request whose Authorization header is the word Bearer, a space
    and a token that is not empty is decided by Clerk on exactly that
    token: it goes on with the user of the payload when Clerk accepts the
    token, and is answered with 400, not 401, when Clerk refuses it. *)
Theorem verifyToken_bearer (clerk : string → option (list (string * value)))
    (token : string) :
  token ≠ "" →
  verifyToken clerk (Some ("Bearer " ++ token)%string) =
    match clerk token with
    | Some payload =>
        inr (mkUser (prop payload "sub") (prop payload "email")
               (prop payload "firstName") (prop payload "lastName"))
    | None => inl (mkResponse 400 (ErrorBody "Invalid token"))
    end.
Proof.
  intros Hne. unfold verifyToken.
  rewrite replace_unfold, strip_prefix_app.
  change (String.append "" token) with token.
  by destruct (String.eqb_spec token "").
Qed.

Lemma verifyToken_bearer_witness :
  verifyToken (fun t => if String.eqb t "abc" then Some [("sub", num 7)] else None)
    (Some "Bearer abc")
  = inr (mkUser (num 7) undefined undefined undefined).
Proof.
  apply (verifyToken_bearer
           (fun t => if String.eqb t "abc" then Some [("sub", num 7)] else None) "abc").
  discriminate.
Defined.

(** X5. The scheme is not required: a header without any space is taken
    whole as the token, so that the bare token is accepted as well; the
    empty header is answered with 401. *)
Theorem verifyToken_bare_token (clerk : string → option (list (string * value)))
    (header : string) :
  Forall (fun c => c ≠ " "%char) (list_ascii_of_string header) →
  verifyToken clerk (Some header) =
    if String.eqb header "" then inl (mkResponse 401 (ErrorBody "Access denied"))
    else verifyToken clerk (Some ("Bearer " ++ header)%string).
Proof.
  intros Hh. unfold verifyToken at 2.
  rewrite replace_unfold, strip_prefix_app.
  change (String.append "" header) with header.
  unfold verifyToken. rewrite (replace_bearer_no_space _ Hh).
  by destruct (String.eqb header "").
Qed.

Lemma verifyToken_bare_token_witness :
  verifyToken (fun t => if String.eqb t "abc" then Some [("sub", num 7)] else None)
    (Some "abc")
  = verifyToken (fun t => if String.eqb t "abc" then Some [("sub", num 7)] else None)
      (Some "Bearer abc").
Proof.
  apply (verifyToken_bare_token
           (fun t => if String.eqb t "abc" then Some [("sub", num 7)] else None) "abc").
  repeat constructor; discriminate.
Defined.

(** ** The routes of the sessions *)

Import MoreRoutes.

Section Sessions.
Implicit Types (pool : option Pool) (d : db) (sessionId userId : Z).

(** X9. A user id that is a string, as the subject of a token is, never
    gets the status of a session changed, whatever the session and the
    status asked for: the route answers 500 when its pool is undefined,
    as it is as shipped, or when the id of the session is outside the
    range of INTEGER, and otherwise 403, because the host check compares
    the INTEGER column with the string by [!==]; no table changes. *)
Theorem update_status_string_user pool d sessionId (sub : string) (status : value) :
  update_status pool d sessionId (PStr sub) status
  = (match pool with
     | Some _ =>
         if in_int4 sessionId
         then mkResponse 403 (ErrorBody "Only session host can update status")
         else mkResponse 500 (ErrorBody "Internal server error")
     | None => mkResponse 500 (ErrorBody "Internal server error")
     end, d).
Proof.
  unfold update_status. destruct pool as [p|]; [|done].
  destruct (in_int4 sessionId); [|done]. simpl.
  destruct (List.map s_host_id _) as [|[h|] l]; reflexivity.
Qed.

(** X11. The join keeps what the constraint UNIQUE (session_id, user_id)
    demands: when no user has more than one row for a session, no user
    has after a join, however the join is answered and whether or not
    the pool is bound. *)
Theorem join_session_unique pool d sessionId userId :
  (∀ s u, (List.length (participants_of d s u) ≤ 1)%nat) →
  ∀ s u,
    (List.length (participants_of (snd (join_session pool d sessionId userId)) s u)
     ≤ 1)%nat.
Proof.
  intros Hinv s u. unfold join_session.
  destruct pool as [p|]; [|apply Hinv].
  destruct (negb (in_int4 sessionId)); [apply Hinv|].
  destruct (List.length (sessions_with_status d sessionId "active") =? 0)%nat;
    [apply Hinv|].
  destruct (negb (in_int4 userId)); [apply Hinv|].
  destruct (0 <? List.length (participants_of d sessionId userId))%nat eqn:Hlen;
    [apply Hinv|].
  unfold insert_participant. destruct (_ && _); [|apply Hinv].
  unfold participants_of; simpl. rewrite List.filter_app, List.length_app; simpl.
  destruct (sessionId =? s) eqn:Hs; simpl; [|specialize (Hinv s u);
    unfold participants_of in Hinv; lia].
  destruct (userId =? u) eqn:Hu; simpl; [|specialize (Hinv s u);
    unfold participants_of in Hinv; lia].
  apply Z.eqb_eq in Hs, Hu. subst s u.
  apply Nat.ltb_ge in Hlen. unfold participants_of in Hlen. lia.
Qed.

Lemma join_session_unique_witness :
  (List.length
     (participants_of (snd (join_session routes_pool busy_session 1 7)) 1 8)
   ≤ 1)%nat.
Proof.
  apply (join_session_unique routes_pool busy_session 1 7).
  intros s u. unfold participants_of. simpl.
  destruct (_ && _); simpl; lia.
Defined.

End Sessions.

(** ** The summaries of a session *)

Section Summaries.
Implicit Types (d : db) (sessionId userId : Z) (r row : summary_row).

(** Newest first. *)
Local Abbreviation newest_first :=
  (fun r1 r2 : summary_row => sm_created_at r2 ≤ sm_created_at r1).






(** X14. Creating summaries keeps the primary key: when the ids of the
    stored summaries differ from one another and none exceeds the value
    of the serial, the same holds after a request for a summary, however
    it is answered and whether or not the pool is bound. *)
Theorem add_summary_keeps_ids (pool : option Pool) d userId sessionId summaryType :
  NoDup (sm_id <$> summaries d) →
  Forall (fun r => sm_id r ≤ summaries_id_seq d) (summaries d) →
  NoDup (sm_id <$> summaries (snd (add_summary pool d userId sessionId summaryType)))
  ∧ Forall (fun r => sm_id r
                     ≤ summaries_id_seq
                         (snd (add_summary pool d userId sessionId summaryType)))
      (summaries (snd (add_summary pool d userId sessionId summaryType))).
Proof.
  intros Hnodup Hle. unfold add_summary.
  destruct pool as [p|]; [|done].
  destruct (negb (in_int4 sessionId && in_int4 userId)); [done|].
  destruct (List.length (access_check d sessionId userId) =? 0)%nat; [done|].
  destruct (settled _) as [sd|]; [|done].
  unfold insert_summary.
  assert (Forall (fun r => sm_id r ≤ summaries_id_seq d + 1) (summaries d)) as Hle'
    by (eapply Forall_impl; [exact Hle|]; simpl; intros; lia).
  destruct (existsb _ _); [|done].
  destruct (summary_type_column summaryType) as [ty|]; [|done].
  simpl. split.
  - rewrite fmap_app. simpl. apply NoDup_app. split; [done|]. split.
    + intros x Hx Hx'. apply list_elem_of_singleton in Hx'. subst x.
      apply list_elem_of_fmap in Hx as (r & Hr & Hin).
      rewrite Forall_forall in Hle. specialize (Hle r Hin). lia.
    + apply NoDup_singleton.
  - apply Forall_app. split; [done|]. constructor; [simpl; lia|constructor].
Qed.

Lemma add_summary_keeps_ids_witness :
  NoDup (sm_id <$> summaries (snd (add_summary routes_pool busy_session 8 1 (str "final"))))
  ∧ Forall (fun r => sm_id r
                     ≤ summaries_id_seq
                         (snd (add_summary routes_pool busy_session 8 1 (str "final"))))
      (summaries (snd (add_summary routes_pool busy_session 8 1 (str "final")))).
Proof.
  apply (add_summary_keeps_ids routes_pool busy_session 8 1 (str "final")).
  - apply (bool_decide_unpack _). vm_compute. exact I.
  - apply (bool_decide_unpack _). vm_compute. exact I.
Defined.

End Summaries.

(** ** The transcripts of a session *)

Section Transcripts.
Implicit Types (d : db) (sessionId userId : Z) (t : transcript_row).

(** By timestamp, the rows without one last. *)
Local Abbreviation by_timestamp :=
  (fun t1 t2 : transcript_row => ts_le (t_timestamp t1) (t_timestamp t2) = true).








End Transcripts.

Import LanguageSelector.

(** ** The language selector *)

Section Toggle.
Implicit Types (preferences : list (string * value)) (language : string)
  (items : list value).

Lemma lookup_set_field k v fields : lookup_field k (set_field k v fields) = Some v.
Proof.
  induction fields as [|[k' v'] fields IH]; simpl; [by rewrite String.eqb_refl|].
  destruct (String.eqb k k') eqn:Hk; simpl; by rewrite ?String.eqb_refl, ?Hk.
Qed.

Lemma lookup_set_field_ne k k' v fields :
  k ≠ k' → lookup_field k' (set_field k v fields) = lookup_field k' fields.
Proof.
  intros Hne. induction fields as [|[k0 v0] fields IH]; simpl.
  - by destruct (String.eqb_spec k' k) as [->|].
  - destruct (String.eqb_spec k k0) as [->|]; simpl.
    + by destruct (String.eqb_spec k' k0) as [->|].
    + by rewrite IH.
Qed.

Lemma set_field_set_field k v v' fields :
  set_field k v' (set_field k v fields) = set_field k v' fields.
Proof.
  induction fields as [|[k0 v0] fields IH]; simpl; [by rewrite String.eqb_refl|].
  destruct (String.eqb k k0) eqn:Hk; simpl; by rewrite ?String.eqb_refl, ?Hk, ?IH.
Qed.

Lemma set_field_same k v fields :
  lookup_field k fields = Some v → set_field k v fields = fields.
Proof.
  induction fields as [|[k0 v0] fields IH]; simpl; [done|].
  destruct (String.eqb_spec k k0) as [->|]; [by intros [= ->]|].
  intros H. by rewrite IH.
Qed.

Lemma existsb_filter_out language items :
  existsb (fun l => strict_eq_str l language)
    (List.filter (fun l => negb (strict_eq_str l language)) items) = false.
Proof.
  induction items as [|x items IH]; simpl; [done|].
  destruct (strict_eq_str x language) eqn:Hx; simpl; [done|]. by rewrite Hx.
Qed.

(** X20. A toggle turns the language, and no other, around: when the
    output languages are an array, the language is among them afterwards
    exactly if it was not before, every other string is among them as
    before, and the other properties of the preferences stay. *)
Theorem toggle_flips preferences language items :
  lookup_field "outputLanguages" preferences = Some (VArr items) →
  ∃ items',
    handleOutputLanguageToggle preferences language
      = Some (set_field "outputLanguages" (VArr items') preferences)
    ∧ existsb (fun l => strict_eq_str l language) items'
      = negb (existsb (fun l => strict_eq_str l language) items)
    ∧ (∀ other : string, other ≠ language →
         existsb (fun l => strict_eq_str l other) items'
         = existsb (fun l => strict_eq_str l other) items)
    ∧ (∀ k, k ≠ "outputLanguages" →
         lookup_field k (set_field "outputLanguages" (VArr items') preferences)
         = lookup_field k preferences).
Proof.
  intros Hlook. unfold handleOutputLanguageToggle. rewrite Hlook; simpl.
  eexists. split; [reflexivity|].
  split; [|split].
  - destruct (existsb _ items) eqn:Hin; simpl.
    + apply existsb_filter_out.
    + rewrite existsb_app, Hin. simpl. by rewrite String.eqb_refl.
  - intros other Hne. destruct (existsb _ items) eqn:Hin.
    + clear Hin Hlook. induction items as [|x items IH]; simpl; [done|].
      destruct (strict_eq_str x language) eqn:Hx; simpl; [|by rewrite IH].
      rewrite IH. destruct x as [[| | | |s]| |]; try done. simpl in Hx |- *.
      apply String.eqb_eq in Hx. subst s.
      by destruct (String.eqb_spec language other).
    + rewrite existsb_app. simpl.
      destruct (String.eqb_spec language other); [done|]. by rewrite !orb_false_r.
  - intros k Hk. by apply lookup_set_field_ne.
Qed.

Lemma toggle_flips_witness :
  ∃ items',
    handleOutputLanguageToggle initial_preferences "fr"
      = Some (set_field "outputLanguages" (VArr items') initial_preferences)
    ∧ existsb (fun l => strict_eq_str l "fr") items'
      = negb (existsb (fun l => strict_eq_str l "fr") [str "en"])
    ∧ (∀ other : string, other ≠ "fr" →
         existsb (fun l => strict_eq_str l other) items'
         = existsb (fun l => strict_eq_str l other) [str "en"])
    ∧ (∀ k, k ≠ "outputLanguages" →
         lookup_field k (set_field "outputLanguages" (VArr items') initial_preferences)
         = lookup_field k initial_preferences).
Proof. apply (toggle_flips initial_preferences "fr" [str "en"]). reflexivity. Defined.

(** X21. Selecting a language that was not selected and deselecting it
    again gives back the preferences as they were. *)
Theorem toggle_twice preferences language items :
  lookup_field "outputLanguages" preferences = Some (VArr items) →
  existsb (fun l => strict_eq_str l language) items = false →
  handleOutputLanguageToggle preferences language
    ≫= (fun preferences' => handleOutputLanguageToggle preferences' language)
  = Some preferences.
Proof.
  intros Hlook Hout. unfold handleOutputLanguageToggle at 2.
  rewrite Hlook; simpl. rewrite Hout. simpl.
  unfold handleOutputLanguageToggle. rewrite lookup_set_field; simpl.
  rewrite existsb_app; simpl. rewrite String.eqb_refl, orb_true_r.
  rewrite set_field_set_field. f_equal.
  rewrite List.filter_app; simpl. rewrite String.eqb_refl; simpl.
  rewrite app_nil_r.
  replace (List.filter _ items) with items; [by apply set_field_same|].
  clear Hlook. induction items as [|x items IH]; simpl in *; [done|].
  apply orb_false_elim in Hout as [Hx Hout]. rewrite Hx; simpl. by rewrite <- IH.
Qed.

Lemma toggle_twice_witness :
  handleOutputLanguageToggle initial_preferences "fr"
    ≫= (fun preferences' => handleOutputLanguageToggle preferences' "fr")
  = Some initial_preferences.
Proof. apply (toggle_twice initial_preferences "fr" [str "en"]); reflexivity. Defined.

End Toggle.

(** ** The summaries that [generateSummary] makes *)

Import JSString.

Section SummaryText.
Implicit Types (cs cur : list ascii) (s : string).

Lemma split_go_no_cls (cls : ascii → bool) cs cur in_run :
  Forall (fun c => cls c = false) cur →
  Forall (fun piece => Forall (fun c => cls c = false) (list_ascii_of_string piece))
    (split_go cls cur in_run cs).
Proof.
  revert cur in_run. induction cs as [|c cs IH]; intros cur in_run Hcur; simpl.
  - repeat constructor. rewrite list_ascii_of_string_of_list_ascii.
    by apply Forall_rev.
  - destruct (cls c) eqn:Hc.
    + destruct in_run; [by apply IH|]. constructor; [|by apply IH].
      rewrite list_ascii_of_string_of_list_ascii. by apply Forall_rev.
    + apply IH. by constructor.
Qed.

Lemma split_no_cls (cls : ascii → bool) s :
  Forall (fun piece => Forall (fun c => cls c = false) (list_ascii_of_string piece))
    (split cls s).
Proof. apply split_go_no_cls. constructor. Qed.

Lemma drop_spaces_length cs : (List.length (drop_spaces cs) ≤ List.length cs)%nat.
Proof.
  induction cs as [|c cs IH]; simpl; [done|]. destruct (is_space c); simpl; lia.
Qed.

Lemma drop_spaces_idem cs : drop_spaces (drop_spaces cs) = drop_spaces cs.
Proof.
  induction cs as [|c cs IH]; simpl; [done|].
  destruct (is_space c) eqn:Hc; [done|]. simpl. by rewrite Hc.
Qed.

Lemma drop_spaces_suffix cs : ∃ p, cs = (p ++ drop_spaces cs)%list.
Proof.
  induction cs as [|c cs [p Hp]]; simpl; [by exists []|].
  destruct (is_space c); [|by exists []].
  exists (c :: p). simpl. by rewrite <- Hp.
Qed.

Lemma drop_spaces_fixed_prefix (x q : list ascii) :
  drop_spaces (x ++ q) = (x ++ q)%list → drop_spaces x = x.
Proof.
  destruct x as [|c x]; [done|]. simpl.
  destruct (is_space c); [|done].
  intros H. pose proof (drop_spaces_length (x ++ q)) as Hlen.
  rewrite H in Hlen. simpl in Hlen. lia.
Qed.

Lemma Forall_drop_spaces (P : ascii → Prop) cs : Forall P cs → Forall P (drop_spaces cs).
Proof.
  induction 1 as [|c cs Hc Hcs IH]; simpl; [constructor|].
  destruct (is_space c); [done|by constructor].
Qed.

(** [trim] leaves a trimmed string as it is. *)
Lemma trim_idem s : trim (trim s) = trim s.
Proof.
  unfold trim. rewrite list_ascii_of_string_of_list_ascii.
  set (d := drop_spaces (list_ascii_of_string s)).
  set (e := drop_spaces (rev d)).
  destruct (drop_spaces_suffix (rev d)) as [p Hp]. fold e in Hp.
  assert (d = (rev e ++ rev p)%list) as Hd.
  { rewrite <- (rev_involutive d), Hp. by rewrite rev_app_distr. }
  assert (drop_spaces (rev e) = rev e) as ->.
  { apply (drop_spaces_fixed_prefix _ (rev p)). rewrite <- Hd. apply drop_spaces_idem. }
  rewrite rev_involutive. unfold e at 1. by rewrite drop_spaces_idem.
Qed.

Lemma Forall_trim (P : ascii → Prop) s :
  Forall P (list_ascii_of_string s) → Forall P (list_ascii_of_string (trim s)).
Proof.
  intros H. unfold trim. rewrite list_ascii_of_string_of_list_ascii.
  by apply Forall_rev, Forall_drop_spaces, Forall_rev, Forall_drop_spaces.
Qed.

Lemma elem_of_firstn {A} (x : A) (n : nat) (l : list A) : x ∈ firstn n l → x ∈ l.
Proof. intros H. eapply elem_of_sublist; [exact H|apply sublist_take]. Qed.

Lemma elem_of_skipn {A} (x : A) (n : nat) (l : list A) : x ∈ skipn n l → x ∈ l.
Proof. intros H. eapply elem_of_sublist; [exact H|apply sublist_drop]. Qed.

Lemma elem_of_every_third_from {A} (x : A) (i : nat) (l : list A) :
  x ∈ every_third_from i l → x ∈ l.
Proof.
  revert i. induction l as [|y l IH]; intros i; simpl; [done|].
  destruct (_ =? _)%nat; rewrite ?elem_of_cons; [intros [->|H]|intros H].
  - by left.
  - right. by eapply IH.
  - right. by eapply IH.
Qed.

(** X22. A summary type other than key_points and final, be it unknown,
    malformed or missing, gives the rolling summary. *)
Theorem generateSummary_other_type (transcripts : list string) (summaryType : value) :
  strict_eq_str summaryType "key_points" = false →
  strict_eq_str summaryType "final" = false →
  generateSummary transcripts summaryType = generateSummary transcripts (str "rolling").
Proof.
  intros Hk Hf. unfold generateSummary.
  destruct summaryType as [[| | | |s]| |]; try reflexivity.
  simpl in Hk, Hf. simpl. by rewrite Hk, Hf.
Qed.

Lemma generateSummary_other_type_witness :
  generateSummary mock_transcripts (str "weekly")
  = generateSummary mock_transcripts (str "rolling").
Proof. apply (generateSummary_other_type mock_transcripts (str "weekly")); reflexivity. Defined.

(** X23. The summary of type key_points has at most five key points; each
    is a stretch of the conversation between sentence ends, free of full
    stops, exclamation and question marks, without white space at either
    end and longer than ten characters; the content lists the key points
    and there are no action items. *)
Theorem generateSummary_key_points (transcripts : list string) :
  ∃ points,
    generateSummary transcripts (str "key_points")
      = mkCall
          (Returns (mkSummary
             ("Key points discussed: " ++ JSString.join ". " points ++ ".")
             points []))
          []
    ∧ (List.length points ≤ 5)%nat
    ∧ Forall (fun point =>
                (10 < String.length point)%nat
                ∧ trim point = point
                ∧ Forall (fun c => is_terminator c = false) (list_ascii_of_string point))
        points.
Proof.
  unfold generateSummary. simpl strict_eq_str. cbv iota. cbv zeta.
  eexists. split; [reflexivity|]. split.
  - rewrite List.length_map, List.length_firstn. lia.
  - apply Forall_forall. intros point Hpoint.
    apply list_elem_of_In, in_map_iff in Hpoint as (phrase & <- & Hin).
    apply list_elem_of_In, elem_of_firstn, list_elem_of_In in Hin.
    apply List.filter_In in Hin as [Hin Hlen].
    split; [by apply Nat.ltb_lt in Hlen|]. split; [apply trim_idem|].
    apply Forall_trim.
    pose proof (split_no_cls is_terminator (JSString.join " " transcripts)) as Hall.
    rewrite Forall_forall in Hall. apply Hall. by apply list_elem_of_In.
Qed.

Lemma sublist_every_third_from {A} (i : nat) (l : list A) :
  every_third_from i l `sublist_of` l.
Proof.
  revert i. induction l as [|x l IH]; intros i; simpl; [done|].
  destruct (_ =? _)%nat; [by apply sublist_skip|by apply sublist_cons].
Qed.

(** X24. The summaries of type final and rolling are made of words of the
    conversation, the pieces between its runs of white space that are
    longer than two characters: the final summary lists at most twenty of
    them, in their order, and the rolling summary the last ones, at most
    fifteen; every such word is longer than two characters and holds no
    white space. *)
Theorem generateSummary_words (transcripts : list string) :
  ∃ selected recent,
    content_of (generateSummary transcripts (str "final"))
      = Some ("The discussion covered " ++ JSString.join ", " selected ++
              ". Key topics included advancements and implementations. Conclusions focused on challenges and solutions.")
    ∧ content_of (generateSummary transcripts (str "rolling"))
      = Some ("Recent developments: " ++ JSString.join " " recent ++
              ". The conversation is progressing well.")
    ∧ (List.length selected ≤ 20)%nat ∧ (List.length recent ≤ 15)%nat
    ∧ Forall (fun word =>
                (2 < String.length word)%nat
                ∧ Forall (fun c => is_space c = false) (list_ascii_of_string word))
        (selected ++ recent)
    ∧ selected `sublist_of`
        List.filter (fun word => (2 <? String.length word)%nat)
          (split is_space (JSString.join " " transcripts))
    ∧ recent `suffix_of`
        List.filter (fun word => (2 <? String.length word)%nat)
          (split is_space (JSString.join " " transcripts))
    ∧ (List.length recent
       = Nat.min 15
           (List.length
              (List.filter (fun word => (2 <? String.length word)%nat)
                 (split is_space (JSString.join " " transcripts)))))%nat.
Proof.
  unfold generateSummary, content_of. simpl strict_eq_str. cbv iota. cbv zeta.
  simpl settled.
  do 2 eexists. split; [reflexivity|]. split; [reflexivity|].
  split; [rewrite List.length_firstn; lia|].
  split; [unfold slice_last; rewrite List.length_skipn; lia|].
  set (words := List.filter _ _).
  assert (Forall (fun word =>
            (2 < String.length word)%nat
            ∧ Forall (fun c => is_space c = false) (list_ascii_of_string word)) words)
    as Hwords.
  { apply Forall_forall. intros w Hw.
    apply list_elem_of_In, List.filter_In in Hw as [Hin Hlen].
    split; [by apply Nat.ltb_lt in Hlen|].
    pose proof (split_no_cls is_space (JSString.join " " transcripts)) as Hall.
    rewrite Forall_forall in Hall. apply Hall. by apply list_elem_of_In. }
  split; [|split; [|split]].
  - apply Forall_app. split.
    + apply Forall_forall. intros w Hw. rewrite Forall_forall in Hwords.
      apply Hwords. apply elem_of_firstn in Hw.
      by apply elem_of_every_third_from in Hw.
    + apply Forall_forall. intros w Hw. rewrite Forall_forall in Hwords.
      apply Hwords. unfold slice_last in Hw. by apply elem_of_skipn in Hw.
  - etrans; [apply sublist_take|]. apply sublist_every_third_from.
  - unfold slice_last. apply suffix_drop.
  - unfold slice_last. rewrite List.length_skipn. lia.
Qed.

End SummaryText.

(** ** A chat message from the panel to the room *)

Section Chat.

Lemma drop_spaces_all cs : Forall (fun c => is_space c = true) cs → drop_spaces cs = [].
Proof. induction 1 as [|c cs Hc _ IH]; simpl; [done|]. by rewrite Hc. Qed.

(** X25. A message typed into the chat panel reaches the relay trimmed
    and stamped by the sender, and the relay writes it once, as it came,
    to the other sockets of the room of the session; a message of white
    space alone is not sent at all. *)
Theorem chat_message_end_to_end (a : adapter) (id : socket_id) (session_id : Z)
    (user_id : prim) (user_name newMessage now_iso : string) :
  run a (Client.sendMessage (Some id) session_id user_id user_name newMessage now_iso)
  = (a,
     if String.eqb (trim newMessage) "" then []
     else [mkEmission (members a (PNum session_id) ∖ {[id]}) "chat-message"
             (VObj [("sessionId", num session_id); ("userId", VPrim user_id);
                    ("userName", str user_name); ("text", str (trim newMessage));
                    ("timestamp", str now_iso); ("type", str "message")])])
  ∧ (Forall (fun c => is_space c = true) (list_ascii_of_string newMessage) →
     Client.sendMessage (Some id) session_id user_id user_name newMessage now_iso = []).
Proof.
  unfold Client.sendMessage. split.
  - by destruct (String.eqb (trim newMessage) "").
  - intros Hblank. unfold trim. rewrite (drop_spaces_all _ Hblank). reflexivity.
Qed.

End Chat.

(** ** Registration and login *)

Import Preferences Auth.

Section Accounts.
Variable bcrypt_hash : string → string.
Variable jwt_sign : Z → string → option string → string.
Implicit Types (pool : option Pool) (users : list user_row) (serial : Z).

Lemma insert_user_row users serial name email hash role row :
  insert_user users serial name (Some email) hash role = Some row →
  ∃ email' hash',
    varchar 255 email = Some email' ∧ varchar 255 hash = Some hash'
    ∧ u_email row = email' ∧ u_password_hash row = Some hash'
    ∧ existsb (fun u => String.eqb (u_email u) email') users = false.
Proof.
  unfold insert_user. destruct name as [name|]; [|done].
  destruct (varchar 255 name); [|done].
  destruct (varchar 255 email) as [email'|]; [|done].
  destruct (varchar 255 hash) as [hash'|]; [|done].
  destruct (role_column role); [|done].
  destruct (existsb _ users) eqn:Hfree; [done|].
  intros [= <-]. by exists email', hash'.
Qed.

(** X27. Registration keeps the emails of the accounts distinct, however
    it is answered and whether or not the pool is bound. *)
Theorem register_keeps_emails_distinct pool users serial name email password role :
  NoDup (u_email <$> users) →
  NoDup (u_email <$> snd (register bcrypt_hash jwt_sign pool users serial name email
                            password role)).
Proof.
  intros Hnodup. unfold register.
  destruct pool as [p|]; [|done].
  destruct (existsb has_nul (option_list email)); [done|].
  destruct (0 <? _)%nat; [done|].
  destruct password as [pw|]; [|done].
  destruct (insert_user _ _ _ _ _ _) as [row|] eqn:Hins; [|done]. simpl.
  destruct email as [e|]; [|by destruct name].
  destruct (insert_user_row _ _ _ _ _ _ _ Hins) as (email' & _ & _ & _ & Hrow & _ & Hnew).
  rewrite fmap_app. simpl. apply NoDup_app. split; [done|]. split; [|apply NoDup_singleton].
  intros x Hx Hx'. apply list_elem_of_singleton in Hx'. subst x.
  apply list_elem_of_fmap in Hx as (u & Hu & Hin).
  assert (existsb (fun u => String.eqb (u_email u) email') users = true) as Htaken.
  { apply existsb_exists. exists u. split; [by apply list_elem_of_In|].
    rewrite <- Hrow, Hu. apply String.eqb_refl. }
  congruence.
Qed.

End Accounts.

Lemma register_keeps_emails_distinct_witness :
  NoDup (u_email <$> snd (register (fun p => "#" ++ p)%string (fun id e r => e)
                            routes_pool
                            [mkUserRow 1 "Ann" "ann@example.org" (Some "#secret")
                               (Some "viewer")]
                            2 (Some "Bob") (Some "bob@example.org") (Some "other")
                            None)).
Proof.
  apply (register_keeps_emails_distinct (fun p => "#" ++ p)%string (fun id e r => e)
           routes_pool
           [mkUserRow 1 "Ann" "ann@example.org" (Some "#secret") (Some "viewer")]
           2 (Some "Bob") (Some "bob@example.org") (Some "other") None).
  apply (bool_decide_unpack _). vm_compute. exact I.
Defined.

(** ** The routes as shipped *)

Section Shipped.
Variable bcrypt_hash : string → string.
Variable bcrypt_compare : string → string → bool.
Variable jwt_sign : Z → string → option string → string.


End Shipped.
